(** * RoadPath: path utilities of BlackRoad, over pathlib and os.path

    A shallow embedding of [src/roadpath/path.py].  Every operation of that
    module is a one-line delegation to CPython's [pathlib] and [os.path];
    the delegated primitives are embedded here in their POSIX flavour
    ([PurePosixPath], [posixpath]), following the CPython 3.12 sources.

    - [Py]        : the [str] methods the primitives use;
    - [posixpath] : [splitroot], [join], [normpath], [expanduser], [expandvars];
    - [pathlib]   : parsing, rendering and the pure accessors of a path;
    - [roadpath]  : the module itself, definition by definition. *)

From Stdlib Require Import List Ascii String Bool Arith Lia.
Import ListNotations.

Set Implicit Arguments.

(** ** Python strings *)

Module Py.

(** A Python [str] is a sequence of characters; the path primitives only
    ever discriminate a handful of them (separator, dot, tilde, dollar,
    braces, word characters). *)
Definition str := list ascii.

Definition lit (s : string) : str := list_ascii_of_string s.
Coercion lit : string >-> str.

(** [a == b] on strings. *)
Fixpoint str_eqb (a b : str) : bool :=
  match a, b with
  | [], [] => true
  | c :: a', d :: b' => Ascii.eqb c d && str_eqb a' b'
  | _, _ => false
  end.

(** Truthiness of a string: [bool(s)]. *)
Definition truthy (s : str) : bool :=
  match s with [] => false | _ :: _ => true end.

(** [s[a:b]] and [s[a:]] for non-negative bounds. *)
Definition slice (a b : nat) (s : str) : str := firstn (b - a) (skipn a s).
Definition slice_from (a : nat) (s : str) : str := skipn a s.

(** [s.startswith(p)] *)
Fixpoint startswith (p s : str) : bool :=
  match p, s with
  | [], _ => true
  | _ :: _, [] => false
  | c :: p', d :: s' => Ascii.eqb c d && startswith p' s'
  end.

(** [s.endswith(p)] *)
Definition endswith (p s : str) : bool := startswith (rev p) (rev s).

(** [c in s] for a single character [c]. *)
Definition contains (c : ascii) (s : str) : bool := existsb (Ascii.eqb c) s.

(** [s.split(c)] for a single-character separator: never the empty list. *)
Fixpoint split (c : ascii) (s : str) : list str :=
  match s with
  | [] => [[]]
  | d :: r =>
      if Ascii.eqb d c then [] :: split c r
      else match split c r with
           | h :: t => (d :: h) :: t
           | [] => [[d]]
           end
  end.

(** [c.join(l)] for a single-character separator. *)
Fixpoint join (c : ascii) (l : list str) : str :=
  match l with
  | [] => []
  | [x] => x
  | x :: r => x ++ c :: join c r
  end.

(** [s.lstrip(c)] and [s.rstrip(c)] for a single character. *)
Fixpoint lstrip (c : ascii) (s : str) : str :=
  match s with
  | d :: r => if Ascii.eqb d c then lstrip c r else s
  | [] => []
  end.
Definition rstrip (c : ascii) (s : str) : str := rev (lstrip c (rev s)).

(** [s.find(c, 1)] as an option: the index of the first [c] at or after
    position [i], [None] standing for Python's [-1]. *)
Fixpoint find_from (c : ascii) (i : nat) (s : str) : option nat :=
  match s with
  | [] => None
  | d :: r =>
      match i with
      | S i' => option_map S (find_from c i' r)
      | O => if Ascii.eqb d c then Some 0 else option_map S (find_from c 0 r)
      end
  end.

(** [s.rfind(c)] as an option: the index of the last [c]. *)
Fixpoint rfind (c : ascii) (s : str) : option nat :=
  match s with
  | [] => None
  | d :: r =>
      match rfind c r with
      | Some i => Some (S i)
      | None => if Ascii.eqb d c then Some 0 else None
      end
  end.

(** Truthiness of a list: [bool(l)]. *)
Definition nonempty {A} (l : list A) : bool :=
  match l with [] => false | _ :: _ => true end.

(** [a or b] on strings. *)
Definition or_else (a b : str) : str := if truthy a then a else b.

End Py.
Import Py.

Open Scope string_scope.
Open Scope list_scope.
Open Scope nat_scope.

Definition sep : ascii := "/"%char.
Definition dot : str := ".".
Definition dotdot : str := "..".

(** ** Exceptions

    The built-in exceptions the platform primitives raise, and the
    exceptions a caller of the module can observe: a built-in one,
    propagated unchanged, or the module's own [PathError] class. *)

Inductive builtin_exn : Set :=
| ValueError | TypeError | KeyError | OSError | RuntimeError.

Inductive exn : Set :=
| Builtin (e : builtin_exn)
| PathError.

(** Outcome of a platform primitive. *)
Inductive presult (A : Type) : Type :=
| POk (a : A)
| PRaise (e : builtin_exn).
Arguments POk {A} a.
Arguments PRaise {A} e.

(** Outcome of an operation of the module. *)
Inductive result (A : Type) : Type :=
| Ok (a : A)
| Raise (e : exn).
Arguments Ok {A} a.
Arguments Raise {A} e.

Definition pbind {A B} (m : presult A) (k : A -> presult B) : presult B :=
  match m with POk a => k a | PRaise e => PRaise e end.

Definition pmap {A B} (f : A -> B) (m : presult A) : presult B :=
  pbind m (fun a => POk (f a)).

(** An exception of a primitive called by the module is not caught: it
    reaches the caller as it is. *)
Definition propagate {A} (m : presult A) : result A :=
  match m with POk a => Ok a | PRaise e => Raise (Builtin e) end.


(** ** The process and its operating system

    What the primitives read besides their arguments: the environment,
    the working directory, the password database and the temporary
    directory.  Nothing here is cached by the module: every call reads it
    anew from the state it is given. *)

Module os.

Record process : Type := mkProcess {
  (** [os.environ], first binding of a name wins *)
  environ : list (str * str);
  (** [os.getcwd()] *)
  getcwd : presult str;
  (** [pwd.getpwuid(os.getuid()).pw_dir], [None] for [KeyError] *)
  getpwuid_dir : option str;
  (** [pwd.getpwnam(name).pw_dir], [None] for [KeyError] *)
  getpwnam_dir : str -> option str;
  (** [tempfile.gettempdir()] *)
  gettempdir : presult str
}.

(** [environ[name]], [None] for [KeyError]. *)
Fixpoint lookup (name : str) (env : list (str * str)) : option str :=
  match env with
  | [] => None
  | (k, v) :: env' => if str_eqb k name then Some v else lookup name env'
  end.

End os.

(** ** posixpath *)

Module posixpath.

(** [posixpath.splitroot(p)]: drive (always empty on POSIX), root and the
    rest.  Exactly two leading slashes are a root of their own. *)
Definition splitroot (p : str) : str * str * str :=
  if negb (str_eqb (slice 0 1 p) "/") then
    ([], [], p)
  else if negb (str_eqb (slice 1 2 p) "/") || str_eqb (slice 2 3 p) "/" then
    ([], lit "/", slice_from 1 p)
  else
    ([], slice 0 2 p, slice_from 2 p).

(** One round of the loop of [posixpath.join(a, *p)]. *)
Definition join_step (path b : str) : str :=
  if startswith "/" b then b
  else if negb (truthy path) || endswith "/" path then path ++ b
  else path ++ sep :: b.

Definition join (a : str) (p : list str) : str := fold_left join_step p a.

(** [new_comps[-1] == dotdot], false on the empty list. *)
Definition last_is_dotdot (new_comps : list str) : bool :=
  match rev new_comps with
  | c :: _ => str_eqb c dotdot
  | [] => false
  end.

(** One round of the loop of [posixpath.normpath]. *)
Definition normpath_step (initial_slashes : str) (new_comps : list str)
    (comp : str) : list str :=
  if str_eqb comp "" || str_eqb comp dot then new_comps
  else if negb (str_eqb comp dotdot)
          || (negb (truthy initial_slashes) && negb (nonempty new_comps))
          || (nonempty new_comps && last_is_dotdot new_comps)
       then new_comps ++ [comp]
  else if nonempty new_comps then removelast new_comps
  else new_comps.

Definition normpath (path : str) : str :=
  if str_eqb path "" then dot
  else
    let '(_, initial_slashes, path) := splitroot path in
    let comps := split sep path in
    let new_comps := fold_left (normpath_step initial_slashes) comps [] in
    or_else (initial_slashes ++ Py.join sep new_comps) dot.

(** [posixpath.expanduser(path)] *)
Definition expanduser (w : os.process) (path : str) : str :=
  if negb (startswith "~" path) then path
  else
    let i := match find_from sep 1 path with
             | Some i => i
             | None => List.length path
             end in
    let userhome :=
      if i =? 1 then
        match os.lookup "HOME" (os.environ w) with
        | None => os.getpwuid_dir w
        | Some home => Some home
        end
      else os.getpwnam_dir w (slice 1 i path) in
    match userhome with
    | None => path
    | Some userhome =>
        let userhome := rstrip sep userhome in
        or_else (userhome ++ slice_from i path) "/"
    end.

(** [\w] under [re.ASCII]: a letter, a digit or the underscore. *)
Definition is_word (c : ascii) : bool :=
  let n := nat_of_ascii c in
  ((48 <=? n) && (n <=? 57)) || ((65 <=? n) && (n <=? 90))
  || ((97 <=? n) && (n <=? 122)) || (n =? 95).

Fixpoint take_word (s : str) : str :=
  match s with
  | c :: r => if is_word c then c :: take_word r else []
  | [] => []
  end.

(** The pattern [\$(\w+|\{[^}]*\})] tried at the head of [s]: the length
    of the match and its group 1. *)
Definition match_here (s : str) : option (nat * str) :=
  match s with
  | c :: r =>
      if Ascii.eqb c "$" then
        let w := take_word r in
        if truthy w then Some (1 + List.length w, w)
        else match r with
             | b :: r' =>
                 if Ascii.eqb b "{" then
                   match find_from "}" 0 r' with
                   | Some k => Some (k + 3, b :: firstn k r' ++ lit "}")
                   | None => None
                   end
                 else None
             | [] => None
             end
      else None
  | [] => None
  end.

(** Leftmost match in [s], which starts at position [pos] of the path:
    the span and group 1. *)
Fixpoint search_here (s : str) (pos : nat) : option (nat * nat * str) :=
  match match_here s with
  | Some (n, g) => Some (pos, pos + n, g)
  | None =>
      match s with
      | [] => None
      | _ :: r => search_here r (S pos)
      end
  end.

(** [_varprog.search(path, i)] *)
Definition search (path : str) (i : nat) : option (nat * nat * str) :=
  search_here (skipn i path) i.

(** The [while True] loop of [posixpath.expandvars]; every round moves
    [i] closer to the end of [path], so [fuel] bounds the rounds. *)
Fixpoint expandvars_loop (fuel : nat) (env : list (str * str))
    (path : str) (i : nat) : str :=
  match fuel with
  | O => path
  | S fuel' =>
      match search path i with
      | None => path
      | Some (i, j, name) =>
          let name :=
            if startswith "{" name && endswith "}" name
            then slice 1 (List.length name - 1) name else name in
          match os.lookup name env with
          | None => expandvars_loop fuel' env path j
          | Some value =>
              let tail := slice_from j path in
              let path := slice 0 i path ++ value in
              expandvars_loop fuel' env (path ++ tail) (List.length path)
          end
      end
  end.

(** [posixpath.expandvars(path)] *)
Definition expandvars (w : os.process) (path : str) : str :=
  if negb (contains "$" path) then path
  else expandvars_loop (S (List.length path)) (os.environ w) path 0.

(** Code-point order on characters and the lexicographic order of
    sequences, as [min] and [max] use it. *)
Definition char_leb (a b : ascii) : bool := nat_of_ascii a <=? nat_of_ascii b.

Fixpoint lex_leb {A} (leb : A -> A -> bool) (a b : list A) : bool :=
  match a, b with
  | [], _ => true
  | _ :: _, [] => false
  | x :: a', y :: b' =>
      if leb x y then (if leb y x then lex_leb leb a' b' else true) else false
  end.

Definition py_min {A} (leb : A -> A -> bool) (x : A) (l : list A) : A :=
  fold_left (fun m y => if leb m y then m else y) l x.
Definition py_max {A} (leb : A -> A -> bool) (x : A) (l : list A) : A :=
  fold_left (fun m y => if leb y m then m else y) l x.

(** Longest common prefix of two sequences: the loop
    [for i, c in enumerate(s1): if c != s2[i]: return s1[:i]]. *)
Fixpoint common_head {A} (eqb : A -> A -> bool) (s1 s2 : list A) : list A :=
  match s1, s2 with
  | c :: s1', d :: s2' => if eqb c d then c :: common_head eqb s1' s2' else []
  | _, _ => []
  end.

(** [os.path.commonprefix(m)] *)
Definition commonprefix (m : list str) : str :=
  match m with
  | [] => []
  | x :: l =>
      common_head Ascii.eqb (py_min (lex_leb char_leb) x l)
                            (py_max (lex_leb char_leb) x l)
  end.

(** [posixpath.commonpath(paths)] *)
Definition commonpath (paths : list str) : presult str :=
  match paths with
  | [] => PRaise ValueError
  | p0 :: ps =>
      let isabs (p : str) := str_eqb (slice 0 1 p) "/" in
      if negb (forallb (fun p => Bool.eqb (isabs p) (isabs p0)) ps)
      then PRaise ValueError
      else
        let clean (p : str) :=
          filter (fun c => truthy c && negb (str_eqb c dot)) (split sep p) in
        let s1 := py_min (lex_leb (lex_leb char_leb)) (clean p0) (map clean ps) in
        let s2 := py_max (lex_leb (lex_leb char_leb)) (clean p0) (map clean ps) in
        let common := common_head str_eqb s1 s2 in
        let prefix : str := if isabs p0 then "/" else "" in
        POk (prefix ++ Py.join sep common)
  end.

End posixpath.

(** ** pathlib (PurePosixPath / PosixPath) *)

Module pathlib.

(** A path object: the segments it was built from ([_raw_paths]), its
    parsed drive, root and tail, and the rendering [absolute()] may cache
    in [_str] ahead of parsing. *)
Record Path : Type := mkPath {
  _raw_paths : list str;
  drive : str;
  root : str;
  _tail : list str;
  _str : option str
}.

(** Kept by [_parse_path]: [x and x != '.']. *)
Definition kept (x : str) : bool := truthy x && negb (str_eqb x dot).

(** [PurePath._parse_path(path)]; the UNC branch needs a drive that
    starts with the separator, which [posixpath.splitroot] never gives. *)
Definition _parse_path (path : str) : str * str * list str :=
  if negb (truthy path) then ([], [], [])
  else
    let '(drv, root, rel) := posixpath.splitroot path in
    (drv, root, filter kept (split sep rel)).

(** The string [_load_parts] parses: the raw segments, joined. *)
Definition joined_raw (paths : list str) : str :=
  match paths with
  | [] => []
  | [p] => p
  | a :: p => posixpath.join a p
  end.

(** [PurePath] applied to string segments. *)
Definition of_segments (args : list str) : Path :=
  let '(drv, root, tail) := _parse_path (joined_raw args) in
  mkPath args drv root tail None.

(** [PurePath(s)] *)
Definition of_str (s : str) : Path := of_segments [s].

(** [PurePath(p, *args)] for a path object followed by string segments:
    the raw segments of [p] are taken over. *)
Definition of_path (p : Path) (args : list str) : Path :=
  of_segments (_raw_paths p ++ args).

(** [_format_parsed_parts(drv, root, tail)]; [splitdrive] is trivial on
    POSIX, so the middle branch never fires. *)
Definition _format_parsed_parts (drv root : str) (tail : list str) : str :=
  if truthy drv || truthy root then drv ++ root ++ Py.join sep tail
  else Py.join sep tail.

(** [_from_parsed_parts(drv, root, tail)] *)
Definition _from_parsed_parts (drv root : str) (tail : list str) : Path :=
  let path_str := _format_parsed_parts drv root tail in
  mkPath [path_str] drv root tail (Some (or_else path_str dot)).

(** [str(p)] *)
Definition to_str (p : Path) : str :=
  match _str p with
  | Some s => s
  | None => or_else (_format_parsed_parts (drive p) (root p) (_tail p)) dot
  end.

(** [p == q] between two POSIX paths: [_str_normcase] is [str]. *)
Definition eqb (p q : Path) : bool := str_eqb (to_str p) (to_str q).

(** [p.parts] *)
Definition parts (p : Path) : list str :=
  if truthy (drive p) || truthy (root p)
  then (drive p ++ root p) :: _tail p
  else _tail p.

(** [p.name] *)
Definition name (p : Path) : str := last (_tail p) [].

(** The test [0 < i < len(name) - 1] on [name.rfind('.')]. *)
Definition suffix_at (name : str) : option nat :=
  match rfind "." name with
  | Some i => if (0 <? i) && (i <? List.length name - 1) then Some i else None
  | None => None
  end.

(** [p.suffix] *)
Definition suffix (p : Path) : str :=
  match suffix_at (name p) with
  | Some i => slice_from i (name p)
  | None => []
  end.

(** [p.stem] *)
Definition stem (p : Path) : str :=
  match suffix_at (name p) with
  | Some i => slice 0 i (name p)
  | None => name p
  end.

(** [p.suffixes] *)
Definition suffixes (p : Path) : list str :=
  if endswith "." (name p) then []
  else map (fun s => "."%char :: s) (List.tl (split "." (lstrip "." (name p)))).

(** [p.parent] *)
Definition parent (p : Path) : Path :=
  if negb (nonempty (_tail p)) then p
  else _from_parsed_parts (drive p) (root p) (removelast (_tail p)).

(** [tail[:-idx-1]] *)
Definition drop_last (n : nat) (tail : list str) : list str :=
  firstn (List.length tail - n) tail.

(** [list(p.parents)] *)
Definition parents (p : Path) : list Path :=
  map (fun idx => _from_parsed_parts (drive p) (root p)
                    (drop_last (S idx) (_tail p)))
      (seq 0 (List.length (_tail p))).

(** [p.is_absolute()] on POSIX *)
Definition is_absolute (p : Path) : bool := truthy (root p).

(** [p.with_name(name)].  CPython 3.11 tests the name otherwise: it
    takes [./x] and [x/.] for [x], and refuses [.].  The two agree on a
    name without separator other than [.], and on a name that is empty,
    begins or ends with the separator, or comes to several components. *)
Definition with_name (p : Path) (nm : str) : presult Path :=
  if negb (truthy (name p)) then PRaise ValueError
  else
    let '(drv, rt, tl) := posixpath.splitroot nm in
    if truthy drv || truthy rt || negb (truthy tl) || contains sep tl
    then PRaise ValueError
    else POk (_from_parsed_parts (drive p) (root p)
                (removelast (_tail p) ++ [nm])).

(** [p.with_stem(stem)] *)
Definition with_stem (p : Path) (st : str) : presult Path :=
  with_name p (st ++ suffix p).

(** [p.with_suffix(suffix)] *)
Definition with_suffix (p : Path) (sfx : str) : presult Path :=
  if contains sep sfx then PRaise ValueError
  else if (truthy sfx && negb (startswith "." sfx)) || str_eqb sfx "."
  then PRaise ValueError
  else
    let nm := name p in
    if negb (truthy nm) then PRaise ValueError
    else
      let old_suffix := suffix p in
      let nm' :=
        if negb (truthy old_suffix) then nm ++ sfx
        else slice 0 (List.length nm - List.length old_suffix) nm ++ sfx in
      POk (_from_parsed_parts (drive p) (root p)
             (removelast (_tail p) ++ [nm'])).

(** [p.is_relative_to(other)] *)
Definition is_relative_to (p other : Path) : bool :=
  eqb other p || existsb (eqb other) (parents p).

(** [p.relative_to(other)] with [walk_up=False]: the first round of the
    loop over [[other] + list(other.parents)] either breaks, with
    [step = 0] and [path = other], or raises. *)
Definition relative_to (p other : Path) : presult Path :=
  if is_relative_to p other then
    POk (of_segments (skipn (List.length (_tail other)) (_tail p)))
  else PRaise ValueError.

(** An argument of the constructor: a string or a path object. *)
Inductive segment : Type :=
| SegStr (s : str)
| SegPath (p : Path).

Definition raw_of (a : segment) : list str :=
  match a with
  | SegStr s => [s]
  | SegPath p => _raw_paths p
  end.

(** [p.with_segments(a, b, ...)], that is [type(p)(a, b, ...)]: the raw
    segments of path objects are taken over, strings are segments. *)
Definition with_segments (args : list segment) : Path :=
  of_segments (flat_map raw_of args).

(** [p.joinpath(a, b, ...)] and [p / a] *)
Definition joinpath (p : Path) (args : list segment) : Path :=
  with_segments (SegPath p :: args).

(** [p.relative_to(other)] and [p.is_relative_to(other)] as they are
    called, [other] being converted first. *)
Definition relative_to_arg (p : Path) (other : segment) : presult Path :=
  relative_to p (with_segments [other]).

(** [p.expanduser()] *)
Definition expanduser (w : os.process) (p : Path) : presult Path :=
  if negb (truthy (drive p) || truthy (root p))
     && nonempty (_tail p)
     && str_eqb (slice 0 1 (hd [] (_tail p))) "~"
  then
    let homedir := posixpath.expanduser w (hd [] (_tail p)) in
    if str_eqb (slice 0 1 homedir) "~" then PRaise RuntimeError
    else
      let '(drv, rt, tl) := _parse_path homedir in
      POk (_from_parsed_parts drv rt (tl ++ List.tl (_tail p)))
  else POk p.

(** [Path.home()] *)
Definition home (w : os.process) : presult Path :=
  expanduser w (of_str "~").

(** [p.absolute()]; the drive is empty on POSIX. *)
Definition absolute (w : os.process) (p : Path) : presult Path :=
  if is_absolute p then POk p
  else
    pbind (os.getcwd w) (fun cwd =>
      if negb (truthy (root p)) && negb (nonempty (_tail p)) then
        let result := with_segments [SegStr cwd] in
        POk (mkPath (_raw_paths result) (drive result) (root result)
                    (_tail result) (Some cwd))
      else POk (with_segments [SegStr cwd; SegPath p])).

(** [Path.cwd()] *)
Definition cwd (w : os.process) : presult Path :=
  absolute w (of_segments []).

(** The primitives that consult the file system, or whose pattern
    language is the platform's: taken as they are. *)
Record filesystem : Type := mkFilesystem {
  resolve : Path -> presult Path;
  exists_ : Path -> presult bool;
  is_file : Path -> presult bool;
  is_dir : Path -> presult bool;
  is_symlink : Path -> presult bool;
  match_ : Path -> str -> presult bool;
  glob : Path -> str -> presult (list Path);
  rglob : Path -> str -> presult (list Path);
  samefile : str -> str -> presult bool
}.

End pathlib.

(** ** roadpath/path.py *)

Module roadpath.

Import pathlib.

(** The world the module runs in. *)
Record world : Type := mkWorld {
  proc : os.process;
  fs : filesystem;
  (** the built-in [repr] of a string, quoting included *)
  repr_str : str -> str
}.

(** [@dataclass class PathParts] *)
Record PathParts : Type := mkPathParts {
  pp_drive : str;
  pp_root : str;
  pp_parts : list str;
  pp_name : str;
  pp_stem : str;
  pp_suffix : str;
  pp_suffixes : list str;
  pp_parent : str
}.

(** [class RoadPath]: its one attribute. *)
Record RoadPath : Type := mkRoadPath { _path : Path }.

(** [Union[str, Path, "RoadPath"]] *)
Inductive pathlike : Type :=
| AStr (s : str)
| APath (p : Path)
| ARoadPath (r : RoadPath).

(** [Any]: the values [__eq__] can be handed. *)
Inductive object : Type :=
| ORoadPath (r : RoadPath)
| OStr (s : str)
| OPath (p : Path)
| OPurePath (p : Path)
| ONone
| OBool (b : bool)
| OInt (n : nat)
| OBytes (b : list ascii)
| OTuple (items : list str)
| OInstance (class_name : str).

(** [isinstance(other, RoadPath)] and [isinstance(other, (str, Path))] *)
Definition isinstance_RoadPath (o : object) : bool :=
  match o with ORoadPath _ => true | _ => false end.
Definition isinstance_str_or_Path (o : object) : bool :=
  match o with OStr _ | OPath _ => true | _ => false end.

Module RoadPath.

(** [RoadPath.__init__] *)
Definition __init__ (path : pathlike) : RoadPath :=
  match path with
  | ARoadPath r => mkRoadPath (_path r)
  | AStr s => mkRoadPath (with_segments [SegStr s])
  | APath p => mkRoadPath (with_segments [SegPath p])
  end.

Definition cwd (w : world) : result RoadPath :=
  propagate (pmap (fun p => __init__ (APath p)) (pathlib.cwd (proc w))).

Definition home (w : world) : result RoadPath :=
  propagate (pmap (fun p => __init__ (APath p)) (pathlib.home (proc w))).

Definition temp (w : world) : result RoadPath :=
  propagate (pmap (fun s => __init__ (AStr s)) (os.gettempdir (proc w))).

Definition __str__ (self : RoadPath) : str := to_str (_path self).

(** [f"RoadPath({self._path!r})"], the path printing as
    [PosixPath(repr(str(path)))]. *)
Definition __repr__ (w : world) (self : RoadPath) : str :=
  lit "RoadPath(" ++ (lit "PosixPath(" ++ repr_str w (to_str (_path self)) ++ lit ")")
  ++ lit ")".

Definition __truediv__ (self : RoadPath) (other : segment) : RoadPath :=
  __init__ (APath (joinpath (_path self) [other])).

Definition __eq__ (self : RoadPath) (other : object) : bool :=
  match other with
  | ORoadPath o => pathlib.eqb (_path self) (_path o)
  | OStr s => pathlib.eqb (_path self) (with_segments [SegStr s])
  | OPath p => pathlib.eqb (_path self) (with_segments [SegPath p])
  | _ => false
  end.

Definition path (self : RoadPath) : Path := _path self.
Definition name (self : RoadPath) : str := pathlib.name (_path self).
Definition stem (self : RoadPath) : str := pathlib.stem (_path self).
Definition suffix (self : RoadPath) : str := pathlib.suffix (_path self).
Definition suffixes (self : RoadPath) : list str :=
  pathlib.suffixes (_path self).

Definition parent (self : RoadPath) : RoadPath :=
  __init__ (APath (pathlib.parent (_path self))).

Definition parents (self : RoadPath) : list RoadPath :=
  map (fun p => __init__ (APath p)) (pathlib.parents (_path self)).

Definition parts (self : RoadPath) : list str := pathlib.parts (_path self).

Definition parse (self : RoadPath) : PathParts :=
  mkPathParts
    (drive (_path self))
    (root (_path self))
    (pathlib.parts (_path self))
    (pathlib.name (_path self))
    (pathlib.stem (_path self))
    (pathlib.suffix (_path self))
    (pathlib.suffixes (_path self))
    (to_str (pathlib.parent (_path self))).

Definition absolute (w : world) (self : RoadPath) : result RoadPath :=
  propagate (pmap (fun p => __init__ (APath p))
                  (pathlib.absolute (proc w) (_path self))).

Definition resolve (w : world) (self : RoadPath) : result RoadPath :=
  propagate (pmap (fun p => __init__ (APath p))
                  (pathlib.resolve (fs w) (_path self))).

Definition normalize (self : RoadPath) : RoadPath :=
  __init__ (AStr (posixpath.normpath (to_str (_path self)))).

Definition relative_to (self : RoadPath) (base : pathlike) : result RoadPath :=
  let base :=
    match base with
    | ARoadPath b => SegPath (_path b)
    | AStr s => SegStr s
    | APath p => SegPath p
    end in
  propagate (pmap (fun p => __init__ (APath p))
                  (relative_to_arg (_path self) base)).

Definition with_name (self : RoadPath) (name : str) : result RoadPath :=
  propagate (pmap (fun p => __init__ (APath p))
                  (pathlib.with_name (_path self) name)).

Definition with_stem (self : RoadPath) (stem : str) : result RoadPath :=
  propagate (pmap (fun p => __init__ (APath p))
                  (pathlib.with_stem (_path self) stem)).

Definition with_suffix (self : RoadPath) (suffix : str) : result RoadPath :=
  propagate (pmap (fun p => __init__ (APath p))
                  (pathlib.with_suffix (_path self) suffix)).

Definition join (self : RoadPath) (parts : list str) : RoadPath :=
  __init__ (APath (joinpath (_path self) (map SegStr parts))).

Definition exists_ (w : world) (self : RoadPath) : result bool :=
  propagate (pathlib.exists_ (fs w) (_path self)).
Definition is_file (w : world) (self : RoadPath) : result bool :=
  propagate (pathlib.is_file (fs w) (_path self)).
Definition is_dir (w : world) (self : RoadPath) : result bool :=
  propagate (pathlib.is_dir (fs w) (_path self)).
Definition is_symlink (w : world) (self : RoadPath) : result bool :=
  propagate (pathlib.is_symlink (fs w) (_path self)).
Definition is_absolute (self : RoadPath) : bool :=
  pathlib.is_absolute (_path self).

Definition match_ (w : world) (self : RoadPath) (pattern : str) : result bool :=
  propagate (pathlib.match_ (fs w) (_path self) pattern).

Definition glob (w : world) (self : RoadPath) (pattern : str)
  : result (list RoadPath) :=
  propagate (pmap (map (fun p => __init__ (APath p)))
                  (pathlib.glob (fs w) (_path self) pattern)).

Definition rglob (w : world) (self : RoadPath) (pattern : str)
  : result (list RoadPath) :=
  propagate (pmap (map (fun p => __init__ (APath p)))
                  (pathlib.rglob (fs w) (_path self) pattern)).

End RoadPath.

(** [RoadPath(s)] for a string literal of the source. *)
Definition RoadPath_ (s : str) : RoadPath := RoadPath.__init__ (AStr s).

(** *** Free functions *)

Definition join (parts : list str) : str := to_str (of_segments parts).

Definition split (path : str) : str * str :=
  let p := of_str path in
  (to_str (pathlib.parent p), pathlib.name p).

Definition dirname (path : str) : str := to_str (pathlib.parent (of_str path)).

Definition basename (path : str) : str := pathlib.name (of_str path).

Definition splitext (path : str) : result (str * str) :=
  let p := of_str path in
  propagate (pmap (fun q => (to_str q, pathlib.suffix p))
                  (pathlib.with_suffix p "")).

Definition normalize (path : str) : str := posixpath.normpath path.

Definition absolute (w : world) (path : str) : result str :=
  propagate (pmap to_str (pathlib.absolute (proc w) (of_str path))).

Definition resolve (w : world) (path : str) : result str :=
  propagate (pmap to_str (pathlib.resolve (fs w) (of_str path))).

(** [base = base or os.getcwd()]: the working directory is read only
    when [base] is falsy, that is [None] or the empty string. *)
Definition base_or_getcwd (w : world) (base : option str) : presult str :=
  match base with
  | Some b => if truthy b then POk b else os.getcwd (proc w)
  | None => os.getcwd (proc w)
  end.

Definition relative (w : world) (path : str) (base : option str) : result str :=
  propagate
    (pbind (base_or_getcwd w base) (fun base =>
       pmap to_str (relative_to_arg (of_str path) (SegStr base)))).

Definition expanduser (w : world) (path : str) : str :=
  posixpath.expanduser (proc w) path.

Definition expandvars (w : world) (path : str) : str :=
  posixpath.expandvars (proc w) path.

Definition expand (w : world) (path : str) : str :=
  expandvars w (expanduser w path).

Definition commonpath (paths : list str) : result str :=
  propagate (posixpath.commonpath paths).

Definition commonprefix (paths : list str) : str :=
  posixpath.commonprefix paths.

Definition samefile (w : world) (path1 path2 : str) : result bool :=
  propagate (pathlib.samefile (fs w) path1 path2).

(** *** PathBuilder

    The builder is the one mutable object of the module: its methods
    update [_parts] in place and return [self], so each is a function
    from the builder's state to its next state. *)

Record PathBuilder : Type := mkPathBuilder { _parts : list str }.

Module PathBuilder.

Definition __init__ (base : str) : PathBuilder :=
  mkPathBuilder (if truthy base then [base] else []).

Definition add (self : PathBuilder) (parts : list str) : PathBuilder :=
  mkPathBuilder (_parts self ++ parts).

Definition parent (self : PathBuilder) : PathBuilder :=
  mkPathBuilder (_parts self ++ [dotdot]).

Definition build (self : PathBuilder) : RoadPath :=
  RoadPath.__init__ (APath (of_segments (_parts self))).

Definition __str__ (self : PathBuilder) : str :=
  RoadPath.__str__ (build self).

End PathBuilder.

Definition builder (base : str) : PathBuilder := PathBuilder.__init__ base.

(** [example_usage()]: the lines it prints, in order. *)
Definition example_usage (w : world) : result (list str) :=
  let nl : str := [ascii_of_nat 10] in
  let p := RoadPath_ "/home/user/documents/file.txt" in
  let parts := RoadPath.parse p in
  let out1 :=
    [ lit "Path: " ++ RoadPath.__str__ p;
      lit "Name: " ++ pp_name parts;
      lit "Stem: " ++ pp_stem parts;
      lit "Suffix: " ++ pp_suffix parts;
      lit "Parent: " ++ pp_parent parts ] in
  match RoadPath.home w with
  | Raise e => Raise e
  | Ok home =>
      let out2 :=
        [ nl ++ lit "Home: " ++ RoadPath.__str__ home;
          lit "Documents: "
          ++ RoadPath.__str__ (RoadPath.__truediv__ home (SegStr "Documents")) ] in
      match RoadPath.cwd w with
      | Raise e => Raise e
      | Ok cwd =>
          match RoadPath.absolute w cwd with
          | Raise e => Raise e
          | Ok abs =>
              let out3 :=
                [ nl ++ lit "CWD: " ++ RoadPath.__str__ cwd;
                  lit "Absolute: " ++ RoadPath.__str__ abs ] in
              let path :=
                PathBuilder.build
                  (PathBuilder.add
                     (PathBuilder.add (builder "/tmp") [lit "myapp"; lit "data"])
                     [lit "file.json"]) in
              let out4 :=
                [ nl ++ lit "Built path: " ++ RoadPath.__str__ path;
                  nl ++ lit "Join: " ++ join [lit "a"; lit "b"; lit "c"];
                  lit "Dirname: " ++ dirname "/a/b/c.txt";
                  lit "Basename: " ++ basename "/a/b/c.txt" ] in
              match splitext "/a/b/c.tar.gz" with
              | Raise e => Raise e
              | Ok (r, e) =>
                  Ok (out1 ++ out2 ++ out3 ++ out4
                      ++ [ lit "Splitext: (" ++ repr_str w r ++ lit ", "
                           ++ repr_str w e ++ lit ")" ])
              end
          end
      end
  end.

(** *** The operations of the module, as calls

    One constructor per method and function, with its arguments;
    [outcome] runs the call and keeps the exception it raised, if any. *)

Inductive call : Type :=
| C_RoadPath_init (path : pathlike)
| C_RoadPath_cwd
| C_RoadPath_home
| C_RoadPath_temp
| C_RoadPath_str (self : RoadPath)
| C_RoadPath_repr (self : RoadPath)
| C_RoadPath_truediv (self : RoadPath) (other : segment)
| C_RoadPath_eq (self : RoadPath) (other : object)
| C_RoadPath_path (self : RoadPath)
| C_RoadPath_name (self : RoadPath)
| C_RoadPath_stem (self : RoadPath)
| C_RoadPath_suffix (self : RoadPath)
| C_RoadPath_suffixes (self : RoadPath)
| C_RoadPath_parent (self : RoadPath)
| C_RoadPath_parents (self : RoadPath)
| C_RoadPath_parts (self : RoadPath)
| C_RoadPath_parse (self : RoadPath)
| C_RoadPath_absolute (self : RoadPath)
| C_RoadPath_resolve (self : RoadPath)
| C_RoadPath_normalize (self : RoadPath)
| C_RoadPath_relative_to (self : RoadPath) (base : pathlike)
| C_RoadPath_with_name (self : RoadPath) (name : str)
| C_RoadPath_with_stem (self : RoadPath) (stem : str)
| C_RoadPath_with_suffix (self : RoadPath) (suffix : str)
| C_RoadPath_join (self : RoadPath) (parts : list str)
| C_RoadPath_exists (self : RoadPath)
| C_RoadPath_is_file (self : RoadPath)
| C_RoadPath_is_dir (self : RoadPath)
| C_RoadPath_is_symlink (self : RoadPath)
| C_RoadPath_is_absolute (self : RoadPath)
| C_RoadPath_match (self : RoadPath) (pattern : str)
| C_RoadPath_glob (self : RoadPath) (pattern : str)
| C_RoadPath_rglob (self : RoadPath) (pattern : str)
| C_join (parts : list str)
| C_split (path : str)
| C_dirname (path : str)
| C_basename (path : str)
| C_splitext (path : str)
| C_normalize (path : str)
| C_absolute (path : str)
| C_resolve (path : str)
| C_relative (path : str) (base : option str)
| C_expanduser (path : str)
| C_expandvars (path : str)
| C_expand (path : str)
| C_commonpath (paths : list str)
| C_commonprefix (paths : list str)
| C_samefile (path1 path2 : str)
| C_PathBuilder_init (base : str)
| C_PathBuilder_add (self : PathBuilder) (parts : list str)
| C_PathBuilder_parent (self : PathBuilder)
| C_PathBuilder_build (self : PathBuilder)
| C_PathBuilder_str (self : PathBuilder)
| C_builder (base : str)
| C_example_usage.

(** The exception a computation raised. *)
Definition raised {A} (m : result A) : option exn :=
  match m with Ok _ => None | Raise e => Some e end.

(** A call that returns a value raises nothing. *)
Definition value {A} (a : A) : option exn := raised (Ok a).

Definition outcome (w : world) (c : call) : option exn :=
  match c with
  | C_RoadPath_init path => value (RoadPath.__init__ path)
  | C_RoadPath_cwd => raised (RoadPath.cwd w)
  | C_RoadPath_home => raised (RoadPath.home w)
  | C_RoadPath_temp => raised (RoadPath.temp w)
  | C_RoadPath_str self => value (RoadPath.__str__ self)
  | C_RoadPath_repr self => value (RoadPath.__repr__ w self)
  | C_RoadPath_truediv self other => value (RoadPath.__truediv__ self other)
  | C_RoadPath_eq self other => value (RoadPath.__eq__ self other)
  | C_RoadPath_path self => value (RoadPath.path self)
  | C_RoadPath_name self => value (RoadPath.name self)
  | C_RoadPath_stem self => value (RoadPath.stem self)
  | C_RoadPath_suffix self => value (RoadPath.suffix self)
  | C_RoadPath_suffixes self => value (RoadPath.suffixes self)
  | C_RoadPath_parent self => value (RoadPath.parent self)
  | C_RoadPath_parents self => value (RoadPath.parents self)
  | C_RoadPath_parts self => value (RoadPath.parts self)
  | C_RoadPath_parse self => value (RoadPath.parse self)
  | C_RoadPath_absolute self => raised (RoadPath.absolute w self)
  | C_RoadPath_resolve self => raised (RoadPath.resolve w self)
  | C_RoadPath_normalize self => value (RoadPath.normalize self)
  | C_RoadPath_relative_to self base => raised (RoadPath.relative_to self base)
  | C_RoadPath_with_name self name => raised (RoadPath.with_name self name)
  | C_RoadPath_with_stem self stem => raised (RoadPath.with_stem self stem)
  | C_RoadPath_with_suffix self suffix =>
      raised (RoadPath.with_suffix self suffix)
  | C_RoadPath_join self parts => value (RoadPath.join self parts)
  | C_RoadPath_exists self => raised (RoadPath.exists_ w self)
  | C_RoadPath_is_file self => raised (RoadPath.is_file w self)
  | C_RoadPath_is_dir self => raised (RoadPath.is_dir w self)
  | C_RoadPath_is_symlink self => raised (RoadPath.is_symlink w self)
  | C_RoadPath_is_absolute self => value (RoadPath.is_absolute self)
  | C_RoadPath_match self pattern => raised (RoadPath.match_ w self pattern)
  | C_RoadPath_glob self pattern => raised (RoadPath.glob w self pattern)
  | C_RoadPath_rglob self pattern => raised (RoadPath.rglob w self pattern)
  | C_join parts => value (join parts)
  | C_split path => value (split path)
  | C_dirname path => value (dirname path)
  | C_basename path => value (basename path)
  | C_splitext path => raised (splitext path)
  | C_normalize path => value (normalize path)
  | C_absolute path => raised (absolute w path)
  | C_resolve path => raised (resolve w path)
  | C_relative path base => raised (relative w path base)
  | C_expanduser path => value (expanduser w path)
  | C_expandvars path => value (expandvars w path)
  | C_expand path => value (expand w path)
  | C_commonpath paths => raised (commonpath paths)
  | C_commonprefix paths => value (commonprefix paths)
  | C_samefile path1 path2 => raised (samefile w path1 path2)
  | C_PathBuilder_init base => value (PathBuilder.__init__ base)
  | C_PathBuilder_add self parts => value (PathBuilder.add self parts)
  | C_PathBuilder_parent self => value (PathBuilder.parent self)
  | C_PathBuilder_build self => value (PathBuilder.build self)
  | C_PathBuilder_str self => value (PathBuilder.__str__ self)
  | C_builder base => value (builder base)
  | C_example_usage => raised (example_usage w)
  end.

End roadpath.

(** ** Predicates of the specification *)

Import pathlib.

(** A component as parsing leaves it: not empty, not [.], no separator. *)
Definition is_clean (x : str) : bool := kept x && negb (contains sep x).

(** The roots of POSIX paths: none, [/] and [//]. *)
Definition is_root (r : str) : bool :=
  str_eqb r "" || str_eqb r "/" || str_eqb r "//".

(** The rendering of a root and clean components, [.] when both are
    empty. *)
Definition render (r : str) (tail : list str) : str :=
  or_else (_format_parsed_parts [] r tail) dot.

(** A string in rendered form. *)
Definition rendered (s : str) : Prop :=
  exists r tail,
    is_root r = true /\ forallb is_clean tail = true /\ s = render r tail.

(** [a] is a leading run of [b]. *)
Fixpoint is_prefix (a b : list str) : bool :=
  match a, b with
  | [], _ => true
  | x :: a', y :: b' => str_eqb x y && is_prefix a' b'
  | _ :: _, [] => false
  end.

(** The components a path is compared by: its anchor (drive and root,
    empty for a relative path), then its names. *)
Definition anchored_parts (p : roadpath.RoadPath) : list str :=
  (drive (roadpath._path p) ++ root (roadpath._path p))
  :: _tail (roadpath._path p).

(** "This path lies under [base] under lexical comparison of
    components": both are anchored alike, and the names of [base] lead
    those of the path.  A rooted path is under no relative base, not
    even the empty one. *)
Definition is_descendant (self base : roadpath.RoadPath) : bool :=
  is_prefix (anchored_parts base) (anchored_parts self).

(** ** A concrete world for the examples

    A process of user [road], working in [/srv/road], on a file system
    that answers no query. *)

Definition example_process : os.process :=
  os.mkProcess
    [ (lit "HOME", lit "/home/road"); (lit "T", lit "~") ]
    (POk (lit "/srv/road"))
    (Some (lit "/home/road"))
    (fun _ => None)
    (POk (lit "/tmp")).

Definition no_filesystem : filesystem :=
  mkFilesystem
    (fun _ => PRaise OSError) (fun _ => POk false) (fun _ => POk false)
    (fun _ => POk false) (fun _ => POk false) (fun _ _ => PRaise ValueError)
    (fun _ _ => POk []) (fun _ _ => POk []) (fun _ _ => PRaise OSError).

Definition example_world : roadpath.world :=
  roadpath.mkWorld example_process no_filesystem (fun s => s).

(** [builder("/tmp").add("app").parent().add("data").build()] *)
Definition tmp_app_parent_data : roadpath.RoadPath :=
  roadpath.PathBuilder.build
    (roadpath.PathBuilder.add
       (roadpath.PathBuilder.parent
          (roadpath.PathBuilder.add (roadpath.builder "/tmp") [lit "app"]))
       [lit "data"]).

(** [a == b] between two [RoadPath] values. *)
Definition RoadPath_eq (a b : roadpath.RoadPath) : bool :=
  roadpath.RoadPath.__eq__ a (roadpath.ORoadPath b).

(** What [posixpath.normpath] makes of a root and the kept components. *)
Definition normalized (r : str) (tail : list str) : str :=
  or_else (r ++ Py.join sep (fold_left (posixpath.normpath_step r) tail [])) dot.

(** ** Further vocabulary

    Notions the properties below are stated with. *)

(** Number of leading separators. *)
Fixpoint lead (s : str) : nat :=
  match s with
  | c :: r => if Ascii.eqb c sep then S (lead r) else 0
  | [] => 0
  end.

(** The root that goes with a number of leading separators. *)
Definition root_by_lead (n : nat) : str :=
  match n with
  | 0 => []
  | 2 => lit "//"
  | _ => lit "/"
  end.

Definition is_dotdot (x : str) : bool := str_eqb x dotdot.

(** No component is [..]. *)
Definition no_dotdot (l : list str) : bool := forallb (fun x => negb (is_dotdot x)) l.

(** Every [..] component comes before every other component. *)
Fixpoint dotdot_first (l : list str) : bool :=
  match l with
  | [] => true
  | x :: l' => if is_dotdot x then dotdot_first l' else no_dotdot l'
  end.

(** The components [normpath] leaves: under a root no [..] at all, without
    a root only leading ones. *)
Definition collapsed (r : str) (l : list str) : bool :=
  if truthy r then no_dotdot l else dotdot_first l.

(** The components of [normalize(s)]. *)
Definition normal_components (s : str) : list str :=
  let '(_, r, tail) := _parse_path s in
  fold_left (posixpath.normpath_step r) tail [].

(** An extension after its dot: not empty, no dot, no separator. *)
Definition is_plain_ext (e : str) : bool :=
  truthy e && negb (contains "." e) && negb (contains sep e).

(** [a] is a leading run of the characters of [b]. *)
Fixpoint is_char_prefix (a b : str) : bool :=
  match a, b with
  | [], _ => true
  | c :: a', d :: b' => Ascii.eqb c d && is_char_prefix a' b'
  | _ :: _, [] => false
  end.

(** [a] is a leading run of [b], elements compared with [eqb]. *)
Fixpoint prefix_by {A} (eqb : A -> A -> bool) (a b : list A) : bool :=
  match a, b with
  | [], _ => true
  | c :: a', d :: b' => eqb c d && prefix_by eqb a' b'
  | _ :: _, [] => false
  end.

(** A path string is absolute: [p[:1] == sep]. *)
Definition isabs (p : str) : bool := str_eqb (slice 0 1 p) "/".

(** A process without environment and without password entry. *)
Definition bare_process : os.process :=
  os.mkProcess [] (PRaise OSError) None (fun _ => None) (PRaise OSError).

Definition bare_world : roadpath.world :=
  roadpath.mkWorld bare_process no_filesystem (fun s => s).

(** ** Python strings: basic facts *)

#[local] Arguments Ascii.eqb : simpl never.
Unset Implicit Arguments.

Lemma str_eqb_refl (a : str) : str_eqb a a = true.
Proof.
  induction a as [|c a IH]; simpl; [reflexivity|].
  now rewrite Ascii.eqb_refl, IH.
Qed.

Lemma str_eqb_eq (a b : str) : str_eqb a b = true <-> a = b.
Proof.
  split; [|intros ->; apply str_eqb_refl].
  revert b; induction a as [|c a IH]; intros [|d b]; simpl; try discriminate; auto.
  intros H. apply andb_true_iff in H as [H1 H2].
  apply Ascii.eqb_eq in H1. f_equal; auto.
Qed.

Lemma str_eqb_neq (a b : str) : str_eqb a b = false <-> a <> b.
Proof.
  split.
  - intros H E. apply str_eqb_eq in E. congruence.
  - intros H. destruct (str_eqb a b) eqn:E; [|reflexivity].
    apply str_eqb_eq in E. contradiction.
Qed.

Lemma contains_In (c : ascii) (s : str) : contains c s = true <-> In c s.
Proof.
  unfold contains. rewrite existsb_exists. split.
  - intros [x [Hin E]]. apply Ascii.eqb_eq in E. now subst.
  - intros H. exists c. split; [assumption|apply Ascii.eqb_refl].
Qed.

Lemma contains_false (c : ascii) (s : str) : contains c s = false <-> ~ In c s.
Proof.
  rewrite <- contains_In. destruct (contains c s); split; congruence.
Qed.

Lemma is_clean_spec (x : str) :
  is_clean x = true <-> x <> [] /\ x <> dot /\ ~ In sep x.
Proof.
  unfold is_clean, kept. rewrite !andb_true_iff, !negb_true_iff.
  rewrite str_eqb_neq, contains_false.
  destruct x; simpl; intuition congruence.
Qed.

Lemma is_root_spec (r : str) :
  is_root r = true <-> r = [] \/ r = lit "/" \/ r = lit "//".
Proof.
  unfold is_root. rewrite !orb_true_iff, !str_eqb_eq. tauto.
Qed.

(** ** Splitting and joining on the separator *)

Lemma split_not_nil (c : ascii) (s : str) : split c s <> [].
Proof.
  destruct s as [|d r]; simpl; [discriminate|].
  destruct (Ascii.eqb d c); [discriminate|].
  destruct (split c r); discriminate.
Qed.

Lemma split_no_sep (c : ascii) (s : str) : Forall (fun x => ~ In c x) (split c s).
Proof.
  induction s as [|d r IH]; simpl.
  - constructor; [intros []|constructor].
  - destruct (Ascii.eqb d c) eqn:E.
    + constructor; [intros []|assumption].
    + destruct (split c r) as [|h t].
      * constructor; [|constructor].
        intros [->|[]]. now rewrite Ascii.eqb_refl in E.
      * inversion IH; subst. constructor; [|assumption].
        intros [->|Hin]; [|contradiction].
        now rewrite Ascii.eqb_refl in E.
Qed.

Lemma split_without (c : ascii) (x : str) : ~ In c x -> split c x = [x].
Proof.
  induction x as [|d x IH]; simpl; intros H; [reflexivity|].
  destruct (Ascii.eqb d c) eqn:E.
  - apply Ascii.eqb_eq in E. subst. exfalso. apply H. now left.
  - rewrite IH; [reflexivity|]. intros Hin. apply H. now right.
Qed.

Lemma split_app_sep (c : ascii) (x rest : str) :
  ~ In c x -> split c (x ++ c :: rest) = x :: split c rest.
Proof.
  induction x as [|d x IH]; simpl; intros H.
  - now rewrite Ascii.eqb_refl.
  - destruct (Ascii.eqb d c) eqn:E.
    + apply Ascii.eqb_eq in E. subst. exfalso. apply H. now left.
    + rewrite IH; [reflexivity|]. intros Hin. apply H. now right.
Qed.

Lemma split_join (c : ascii) (l : list str) :
  l <> [] -> Forall (fun x => ~ In c x) l -> split c (Py.join c l) = l.
Proof.
  induction l as [|x l IH]; intros Hne Hall; [congruence|].
  inversion Hall as [|? ? Hx Hl]; subst.
  destruct l as [|y l].
  - simpl. now apply split_without.
  - change (Py.join c (x :: y :: l)) with (x ++ c :: Py.join c (y :: l)).
    rewrite split_app_sep by assumption.
    rewrite IH; [reflexivity|discriminate|assumption].
Qed.

Lemma join_snoc (c : ascii) (l : list str) (x : str) :
  l <> [] -> Py.join c (l ++ [x]) = Py.join c l ++ c :: x.
Proof.
  induction l as [|y l IH]; intros Hne; [congruence|].
  destruct l as [|z l].
  - reflexivity.
  - change (Py.join c ((y :: z :: l) ++ [x]))
      with (y ++ c :: Py.join c ((z :: l) ++ [x])).
    rewrite IH by discriminate.
    change (Py.join c (y :: z :: l)) with (y ++ c :: Py.join c (z :: l)).
    now rewrite <- app_assoc.
Qed.

Lemma join_snoc_app (c : ascii) (l : list str) (x y : str) :
  Py.join c (l ++ [x ++ y]) = Py.join c (l ++ [x]) ++ y.
Proof.
  destruct l as [|z l].
  - reflexivity.
  - rewrite !join_snoc by discriminate.
    now rewrite <- app_assoc.
Qed.

(** ** Roots *)

Lemma splitroot_relative (p : str) :
  startswith "/" p = false -> posixpath.splitroot p = ([], [], p).
Proof.
  destruct p as [|a p]; [reflexivity|].
  unfold posixpath.splitroot. simpl. rewrite andb_true_r.
  rewrite Ascii.eqb_sym. now intros ->.
Qed.

Lemma splitroot_one (rel : str) :
  startswith "/" rel = false ->
  posixpath.splitroot (sep :: rel) = ([], lit "/", rel).
Proof.
  destruct rel as [|a rel]; [reflexivity|].
  unfold posixpath.splitroot. simpl. rewrite !andb_true_r.
  rewrite Ascii.eqb_sym. now intros ->.
Qed.

Lemma splitroot_two (rel : str) :
  startswith "/" rel = false ->
  posixpath.splitroot (sep :: sep :: rel) = ([], lit "//", rel).
Proof.
  destruct rel as [|a rel]; [reflexivity|].
  unfold posixpath.splitroot. simpl. rewrite !andb_true_r.
  rewrite Ascii.eqb_sym. now intros ->.
Qed.

Lemma splitroot_shape (p : str) :
  exists r rel, posixpath.splitroot p = ([], r, rel) /\ is_root r = true.
Proof.
  unfold posixpath.splitroot.
  destruct p as [|a p]; simpl; [now exists [], []|].
  rewrite andb_true_r.
  destruct (Ascii.eqb_spec a "/") as [->|Ha]; simpl; [|now exists [], (a :: p)].
  destruct p as [|b p]; simpl; [now exists (lit "/"), []|].
  rewrite andb_true_r.
  destruct (Ascii.eqb_spec b "/") as [->|Hb]; simpl;
    [|now exists (lit "/"), (b :: p)].
  destruct p as [|c p]; simpl; [now exists (lit "//"), []|].
  rewrite andb_true_r.
  destruct (Ascii.eqb c "/"); simpl.
  - now exists (lit "/"), ("/"%char :: c :: p).
  - now exists (lit "//"), (c :: p).
Qed.

(** ** Parsing and rendering *)

Lemma kept_of_clean (x : str) : is_clean x = true -> kept x = true.
Proof. unfold is_clean. now intros H%andb_true_iff. Qed.

Lemma filter_kept_clean (tail : list str) :
  forallb is_clean tail = true -> filter kept tail = tail.
Proof.
  induction tail as [|x tail IH]; simpl; [reflexivity|].
  intros [Hx Ht]%andb_true_iff.
  rewrite (kept_of_clean _ Hx). f_equal. now apply IH.
Qed.

Lemma clean_no_sep (tail : list str) :
  forallb is_clean tail = true -> Forall (fun x => ~ In sep x) tail.
Proof.
  rewrite forallb_forall, Forall_forall. intros H x Hx.
  now apply is_clean_spec, H.
Qed.

Lemma filter_split_join (tail : list str) :
  forallb is_clean tail = true ->
  filter kept (split sep (Py.join sep tail)) = tail.
Proof.
  intros H. destruct tail as [|x tail]; [reflexivity|].
  rewrite split_join; [now apply filter_kept_clean|discriminate|].
  now apply clean_no_sep.
Qed.

Lemma join_clean_no_lead (tail : list str) :
  forallb is_clean tail = true -> startswith "/" (Py.join sep tail) = false.
Proof.
  destruct tail as [|x tail]; [reflexivity|].
  simpl forallb. intros [Hx _]%andb_true_iff.
  apply is_clean_spec in Hx as (Hne & _ & Hsep).
  destruct x as [|c x]; [congruence|].
  assert (Hc : Ascii.eqb "/" c = false).
  { apply Ascii.eqb_neq. intros <-. apply Hsep. now left. }
  destruct tail; simpl; now rewrite Hc.
Qed.

Lemma join_clean_truthy (x : str) (tail : list str) :
  is_clean x = true -> truthy (Py.join sep (x :: tail)) = true.
Proof.
  intros (Hne & _)%is_clean_spec.
  destruct x as [|c x]; [congruence|]. now destruct tail.
Qed.

Lemma format_relative (tail : list str) :
  _format_parsed_parts [] [] tail = Py.join sep tail.
Proof. reflexivity. Qed.

Lemma format_one (tail : list str) :
  _format_parsed_parts [] (lit "/") tail = sep :: Py.join sep tail.
Proof. reflexivity. Qed.

Lemma format_two (tail : list str) :
  _format_parsed_parts [] (lit "//") tail = sep :: sep :: Py.join sep tail.
Proof. reflexivity. Qed.

Lemma format_app (r : str) (tail : list str) :
  is_root r = true -> _format_parsed_parts [] r tail = r ++ Py.join sep tail.
Proof. intros [->| [->| ->]]%is_root_spec; reflexivity. Qed.

Lemma truthy_app (a b : str) : truthy (a ++ b) = truthy a || truthy b.
Proof. now destruct a. Qed.

Lemma parse_format (r : str) (tail : list str) :
  is_root r = true -> forallb is_clean tail = true ->
  _parse_path (_format_parsed_parts [] r tail) = ([], r, tail).
Proof.
  intros Hr Ht. pose proof (join_clean_no_lead _ Ht) as Hlead.
  pose proof (filter_split_join _ Ht) as Hsplit.
  apply is_root_spec in Hr as [->| [->| ->]].
  - rewrite format_relative. destruct tail as [|x tail]; [reflexivity|].
    simpl in Ht. apply andb_true_iff in Ht as [Hx _].
    unfold _parse_path. rewrite (join_clean_truthy _ tail Hx). simpl negb.
    cbv iota. rewrite (splitroot_relative _ Hlead). now rewrite Hsplit.
  - rewrite format_one. unfold _parse_path. simpl truthy. simpl negb.
    cbv iota. rewrite (splitroot_one _ Hlead). now rewrite Hsplit.
  - rewrite format_two. unfold _parse_path. simpl truthy. simpl negb.
    cbv iota. rewrite (splitroot_two _ Hlead). now rewrite Hsplit.
Qed.

Lemma parse_render (r : str) (tail : list str) :
  is_root r = true -> forallb is_clean tail = true ->
  _parse_path (render r tail) = ([], r, tail).
Proof.
  intros Hr Ht. unfold render, or_else.
  destruct (truthy (_format_parsed_parts [] r tail)) eqn:E.
  - now apply parse_format.
  - pose proof (parse_format _ _ Hr Ht) as H.
    unfold _parse_path in H. rewrite E in H. simpl in H.
    now rewrite <- H.
Qed.

Lemma parse_clean (s : str) :
  exists r tail,
    _parse_path s = ([], r, tail)
    /\ is_root r = true /\ forallb is_clean tail = true.
Proof.
  unfold _parse_path. destruct (truthy s); simpl.
  - destruct (splitroot_shape s) as (r & rel & -> & Hr).
    exists r, (filter kept (split sep rel)). repeat split; [assumption|].
    apply forallb_forall. intros x [Hin Hk]%filter_In.
    unfold is_clean. rewrite Hk. simpl.
    apply negb_true_iff, contains_false.
    pose proof (split_no_sep sep rel) as Hall.
    rewrite Forall_forall in Hall. now apply Hall.
  - now exists [], [].
Qed.

(** Rendering is one-to-one on roots and clean components. *)
Lemma render_inj (r1 r2 : str) (t1 t2 : list str) :
  is_root r1 = true -> forallb is_clean t1 = true ->
  is_root r2 = true -> forallb is_clean t2 = true ->
  render r1 t1 = render r2 t2 -> r1 = r2 /\ t1 = t2.
Proof.
  intros Hr1 Ht1 Hr2 Ht2 E.
  pose proof (parse_render _ _ Hr1 Ht1) as P1.
  pose proof (parse_render _ _ Hr2 Ht2) as P2.
  rewrite E in P1. rewrite P1 in P2. now inversion P2.
Qed.

(** What [Path(s)] is, and how it prints. *)
Lemma of_str_parts (s : str) :
  exists r tail,
    of_str s = mkPath [s] [] r tail None
    /\ _parse_path s = ([], r, tail)
    /\ is_root r = true /\ forallb is_clean tail = true.
Proof.
  destruct (parse_clean s) as (r & tail & Hp & Hr & Ht).
  exists r, tail. unfold of_str, of_segments. simpl joined_raw.
  now rewrite Hp.
Qed.

Lemma to_str_of_str (s : str) :
  exists r tail,
    _parse_path s = ([], r, tail)
    /\ is_root r = true /\ forallb is_clean tail = true
    /\ to_str (of_str s) = render r tail.
Proof.
  destruct (of_str_parts s) as (r & tail & -> & Hp & Hr & Ht).
  now exists r, tail.
Qed.

Lemma parse_to_str (s : str) :
  _parse_path (to_str (of_str s)) = _parse_path s.
Proof.
  destruct (to_str_of_str s) as (r & tail & Hp & Hr & Ht & ->).
  rewrite Hp. now apply parse_render.
Qed.

Lemma of_str_parse_eq (s t : str) :
  _parse_path s = _parse_path t -> to_str (of_str s) = to_str (of_str t).
Proof.
  intros E. unfold of_str, of_segments. simpl joined_raw. rewrite E.
  now destruct (_parse_path t) as [[d r] tl].
Qed.

Lemma to_str_idem (s : str) :
  to_str (of_str (to_str (of_str s))) = to_str (of_str s).
Proof. apply of_str_parse_eq, parse_to_str. Qed.

(** ** normpath through the parser *)

Lemma normpath_step_dropped (r : str) (acc : list str) (x : str) :
  kept x = false -> posixpath.normpath_step r acc x = acc.
Proof.
  unfold kept. intros H.
  destruct x as [|c x]; [reflexivity|].
  simpl truthy in H. rewrite andb_true_l in H.
  apply negb_false_iff, str_eqb_eq in H. now rewrite H.
Qed.

Lemma fold_normpath_filter (r : str) (comps acc : list str) :
  fold_left (posixpath.normpath_step r) (filter kept comps) acc
  = fold_left (posixpath.normpath_step r) comps acc.
Proof.
  revert acc. induction comps as [|x comps IH]; intros acc; [reflexivity|].
  simpl. destruct (kept x) eqn:E; simpl.
  - apply IH.
  - rewrite (normpath_step_dropped r acc x E). apply IH.
Qed.

Lemma normpath_parse (s r : str) (tail : list str) :
  _parse_path s = ([], r, tail) -> posixpath.normpath s = normalized r tail.
Proof.
  unfold _parse_path, posixpath.normpath.
  destruct s as [|a s]; simpl.
  - intros H. now inversion H.
  - destruct (posixpath.splitroot (a :: s)) as [[d r'] rel].
    intros H. inversion H; subst. unfold normalized.
    now rewrite fold_normpath_filter.
Qed.

(** [normpath] does not tell a string from its pathlib rendering. *)
Lemma normpath_to_str (s : str) :
  posixpath.normpath (to_str (of_str s)) = posixpath.normpath s.
Proof.
  destruct (parse_clean s) as (r & tail & Hp & _).
  rewrite (normpath_parse s _ _ Hp).
  apply normpath_parse. now rewrite parse_to_str.
Qed.

(** ** Parent and name put together again *)

Lemma endswith_sep_snoc (d : ascii) (s : str) :
  endswith "/" (s ++ [d]) = Ascii.eqb sep d.
Proof.
  unfold endswith. rewrite rev_app_distr. simpl. apply andb_true_r.
Qed.

Lemma join_last_char (tail : list str) :
  tail <> [] -> forallb is_clean tail = true ->
  exists s c, Py.join sep tail = s ++ [c] /\ c <> sep.
Proof.
  induction tail as [|y tail IH]; intros Hne Ht; [congruence|].
  simpl in Ht. apply andb_true_iff in Ht as [Hy Ht].
  destruct tail as [|z tail].
  - apply is_clean_spec in Hy as (Hy & _ & Hsep).
    destruct (exists_last Hy) as (y' & c & ->).
    exists y', c. split; [reflexivity|].
    intros ->. apply Hsep, in_or_app. right. now left.
  - destruct IH as (s & c & E & Hc); [discriminate|assumption|].
    exists (y ++ sep :: s), c. split; [|assumption].
    change (Py.join sep (y :: z :: tail))
      with (y ++ sep :: Py.join sep (z :: tail)).
    rewrite E. now rewrite <- app_assoc.
Qed.

Lemma render_truthy (r : str) (tail : list str) : truthy (render r tail) = true.
Proof.
  unfold render, or_else.
  destruct (truthy (_format_parsed_parts [] r tail)) eqn:E; [assumption|reflexivity].
Qed.

Lemma clean_no_lead (x : str) : is_clean x = true -> startswith "/" x = false.
Proof.
  intros (Hne & _ & Hsep)%is_clean_spec.
  destruct x as [|c x]; [reflexivity|]. simpl. rewrite andb_true_r.
  apply Ascii.eqb_neq. intros <-. apply Hsep. now left.
Qed.

(** A name joined to the rendering of its parent parses to the parent's
    components followed by the name. *)
Lemma parse_join_parent_name (r : str) (init : list str) (x : str) :
  is_root r = true -> forallb is_clean init = true -> is_clean x = true ->
  _parse_path (posixpath.join_step (render r init) x) = ([], r, init ++ [x]).
Proof.
  intros Hr Hi Hx.
  assert (Hall : forallb is_clean (init ++ [x]) = true).
  { rewrite forallb_app, Hi. simpl. now rewrite Hx. }
  unfold posixpath.join_step.
  rewrite (clean_no_lead _ Hx), render_truthy. simpl negb. simpl orb.
  destruct init as [|y init].
  - apply is_root_spec in Hr as [->| [->| ->]]; simpl.
    + unfold _parse_path. simpl truthy. simpl negb. cbv iota.
      rewrite splitroot_relative by reflexivity.
      change ("."%char :: sep :: x) with (dot ++ sep :: x).
      rewrite split_app_sep by (intros [H|[]]; discriminate).
      apply is_clean_spec in Hx as Hx'. destruct Hx' as (_ & _ & Hsep).
      rewrite (split_without _ _ Hsep). simpl.
      now rewrite (kept_of_clean _ Hx).
    + apply (parse_format (lit "/") [x]); [reflexivity|assumption].
    + apply (parse_format (lit "//") [x]); [reflexivity|assumption].
  - assert (Hrender : render r (y :: init) = r ++ Py.join sep (y :: init)).
    { unfold render, or_else. rewrite (format_app _ (y :: init) Hr).
      simpl in Hi. apply andb_true_iff in Hi as [Hy _].
      rewrite truthy_app, (join_clean_truthy y init Hy).
      now rewrite orb_true_r. }
    assert (Hends : endswith "/" (r ++ Py.join sep (y :: init)) = false).
    { destruct (join_last_char (y :: init)) as (s & c & E & Hc);
        [discriminate|assumption|].
      rewrite E, app_assoc, endswith_sep_snoc.
      apply Ascii.eqb_neq. intros <-. now apply Hc. }
    change (lit "/") with ["/"%char] in Hends.
    rewrite Hrender, Hends, <- app_assoc.
    rewrite <- (join_snoc sep (y :: init) x) by discriminate.
    rewrite <- (format_app _ _ Hr).
    now apply parse_format.
Qed.

Lemma parse_join_root_empty (r : str) :
  is_root r = true ->
  _parse_path (posixpath.join_step (render r []) []) = ([], r, []).
Proof. intros [->| [->| ->]]%is_root_spec; reflexivity. Qed.

Lemma to_str_from_parsed (r : str) (tail : list str) :
  to_str (_from_parsed_parts [] r tail) = render r tail.
Proof. reflexivity. Qed.

(** [join(dirname(p), basename(p))] is the rendering of [p]. *)
Lemma join_dirname_basename (p : str) :
  roadpath.join [roadpath.dirname p; roadpath.basename p] = to_str (of_str p).
Proof.
  unfold roadpath.join, roadpath.dirname, roadpath.basename.
  destruct (of_str_parts p) as (r & tail & -> & Hp & Hr & Ht).
  unfold of_segments, joined_raw, posixpath.join, fold_left.
  unfold parent, name. simpl _tail. simpl drive. simpl root.
  destruct tail as [|x0 tail0] eqn:Etail.
  - simpl nonempty. simpl negb. cbv iota.
    change (to_str (mkPath [p] [] r [] None)) with (render r []).
    simpl last. now rewrite (parse_join_root_empty _ Hr).
  - rewrite <- Etail in *. simpl nonempty. simpl negb.
    assert (Hne : tail <> []) by (rewrite Etail; discriminate).
    destruct (exists_last Hne) as (init & x & Ex).
    replace (nonempty tail) with true by (rewrite Etail; reflexivity).
    simpl negb. cbv iota.
    rewrite Ex in *. rewrite removelast_last, last_last.
    rewrite to_str_from_parsed.
    rewrite forallb_app in Ht. apply andb_true_iff in Ht as [Hi Hx].
    simpl in Hx. rewrite andb_true_r in Hx.
    now rewrite (parse_join_parent_name _ _ _ Hr Hi Hx).
Qed.

(** ** The module on the examples of its documentation *)

Example normalize_dotdot : roadpath.normalize "/a/b/../c" = lit "/a/c".
Proof. reflexivity. Qed.

Example normalize_dot : roadpath.normalize "a/./b" = lit "a/b".
Proof. reflexivity. Qed.

Example suffix_stem_tar_gz :
  let p := roadpath.RoadPath_ "/x/y/z.tar.gz" in
  roadpath.RoadPath.suffix p = lit ".gz"
  /\ roadpath.RoadPath.suffixes p = [lit ".tar"; lit ".gz"]
  /\ roadpath.RoadPath.stem p = lit "z.tar".
Proof. repeat split. Qed.

Example dirname_basename_c_txt :
  roadpath.dirname "/a/b/c.txt" = lit "/a/b"
  /\ roadpath.basename "/a/b/c.txt" = lit "c.txt"
  /\ roadpath.join [lit "a"; lit "b"; lit "c"] = lit "a/b/c"
  /\ roadpath.splitext "/a/b/c.tar.gz" = Ok (lit "/a/b/c.tar", lit ".gz").
Proof. repeat split. Qed.

Example commonprefix_is_character_level :
  roadpath.commonprefix [lit "/ab/c"; lit "/abd/e"] = lit "/ab"
  /\ roadpath.commonpath [lit "/a/b/c"; lit "/a/b/d"] = Ok (lit "/a/b").
Proof. split; reflexivity. Qed.

Example builder_of_example_usage :
  roadpath.RoadPath.__str__
    (roadpath.PathBuilder.build
       (roadpath.PathBuilder.add
          (roadpath.PathBuilder.add (roadpath.builder "/tmp")
             [lit "myapp"; lit "data"])
          [lit "file.json"]))
  = lit "/tmp/myapp/data/file.json".
Proof. reflexivity. Qed.

Example home_and_cwd_of_example_world :
  roadpath.RoadPath.home example_world = Ok (roadpath.RoadPath_ "/home/road")
  /\ roadpath.RoadPath.cwd example_world = Ok (roadpath.RoadPath_ "/srv/road")
  /\ roadpath.absolute example_world "x/y" = Ok (lit "/srv/road/x/y")
  /\ roadpath.relative example_world "/srv/road/x" None = Ok (lit "x").
Proof. repeat split. Qed.

(** ** The builder *)

(** C1, as the code has it. [PathBuilder.parent()] appends a literal
    [..] segment and [add] appends its segments in call order; [build()]
    joins the segments without collapsing [..], so the built value is equal
    to [RoadPath("/tmp/app/../data")] and prints as [/tmp/app/../data];
    only its [normalize()] is equal to [RoadPath("/tmp/data")]. *)
Theorem builder_parent_keeps_dotdot :
  (forall b, roadpath._parts (roadpath.PathBuilder.parent b)
             = roadpath._parts b ++ [dotdot])
  /\ (forall b ps, roadpath._parts (roadpath.PathBuilder.add b ps)
                   = roadpath._parts b ++ ps)
  /\ RoadPath_eq tmp_app_parent_data (roadpath.RoadPath_ "/tmp/app/../data") = true
  /\ roadpath.RoadPath.__str__ tmp_app_parent_data = lit "/tmp/app/../data"
  /\ RoadPath_eq (roadpath.RoadPath.normalize tmp_app_parent_data)
                 (roadpath.RoadPath_ "/tmp/data") = true.
Proof.
  split; [reflexivity|]. split; [reflexivity|].
  repeat split; vm_compute; reflexivity.
Qed.

(** C1 fails as stated: the built value is not equal to
    [RoadPath("/tmp/data")]. *)
Lemma builder_parent_not_collapsed :
  RoadPath_eq tmp_app_parent_data (roadpath.RoadPath_ "/tmp/data") <> true.
Proof. vm_compute. discriminate. Qed.

(** ** Construction and printing *)

Lemma str_RoadPath (s : str) :
  roadpath.RoadPath.__str__ (roadpath.RoadPath_ s) = to_str (of_str s).
Proof. reflexivity. Qed.

(** C2, as the code has it. Constructing [RoadPath(s)] is a total function
    of [s], and [str(RoadPath(s))] is the pathlib rendering of [s]: it
    equals [s] exactly when [s] is already rendered (an optional root [/]
    or [//], then components joined by single separators, none empty, [.]
    or holding a separator; or the lone [.]); [str(RoadPath(""))] is [.]. *)
Theorem str_RoadPath_fixed_points :
  (forall s : str,
     roadpath.RoadPath.__str__ (roadpath.RoadPath_ s) = s <-> rendered s)
  /\ roadpath.RoadPath.__str__ (roadpath.RoadPath_ "") = dot.
Proof.
  split; [|reflexivity].
  intros s. rewrite str_RoadPath. split.
  - intros E. destruct (to_str_of_str s) as (r & tail & _ & Hr & Ht & Hs).
    exists r, tail. repeat split; try assumption. congruence.
  - intros (r & tail & Hr & Ht & ->).
    unfold of_str, of_segments. simpl joined_raw.
    now rewrite (parse_render _ _ Hr Ht).
Qed.

(** C2 fails as stated: the empty string is not preserved. *)
Lemma str_RoadPath_empty_not_preserved :
  roadpath.RoadPath.__str__ (roadpath.RoadPath_ "") <> lit "".
Proof. vm_compute. discriminate. Qed.

(** ** Equality *)

Lemma RoadPath_eq_parse (s t : str) :
  RoadPath_eq (roadpath.RoadPath_ s) (roadpath.RoadPath_ t) = true
  <-> _parse_path s = _parse_path t.
Proof.
  change (RoadPath_eq (roadpath.RoadPath_ s) (roadpath.RoadPath_ t))
    with (str_eqb (to_str (of_str s)) (to_str (of_str t))).
  rewrite str_eqb_eq. split.
  - intros E. rewrite <- (parse_to_str s), <- (parse_to_str t). now rewrite E.
  - apply of_str_parse_eq.
Qed.

(** C3, as the code has it. [RoadPath(s) == RoadPath(t)] holds exactly when
    [s] and [t] parse to the same root and components; whenever it holds,
    [normalize(s)] equals [normalize(t)]. *)
Theorem RoadPath_eq_normalize (s t : str) :
  (RoadPath_eq (roadpath.RoadPath_ s) (roadpath.RoadPath_ t) = true
   <-> _parse_path s = _parse_path t)
  /\ (RoadPath_eq (roadpath.RoadPath_ s) (roadpath.RoadPath_ t) = true ->
      roadpath.normalize s = roadpath.normalize t).
Proof.
  split; [apply RoadPath_eq_parse|].
  intros E%RoadPath_eq_parse. unfold roadpath.normalize.
  destruct (parse_clean s) as (r & tail & Hs & _).
  rewrite (normpath_parse s _ _ Hs). rewrite E in Hs.
  now rewrite (normpath_parse t _ _ Hs).
Qed.

Lemma RoadPath_eq_normalize_witness :
  RoadPath_eq (roadpath.RoadPath_ "/a/b") (roadpath.RoadPath_ "/a//b/") = true
  /\ roadpath.normalize "/a/b" = roadpath.normalize "/a//b/".
Proof.
  split; [reflexivity|].
  apply (proj2 (RoadPath_eq_normalize "/a/b" "/a//b/")). reflexivity.
Defined.

(** C3 fails as stated: [normalize] collapses [..], equality does not. *)
Lemma RoadPath_eq_not_normalize :
  ~ (RoadPath_eq (roadpath.RoadPath_ "/a/b/../c") (roadpath.RoadPath_ "/a/c") = true
     <-> roadpath.normalize "/a/b/../c" = roadpath.normalize "/a/c").
Proof.
  intros [_ H]. specialize (H eq_refl). vm_compute in H. discriminate.
Qed.

(** ** Free functions: the round trip *)

(** C4. For every non-empty path string [p],
    [normalize(join(dirname(p), basename(p)))] equals [normalize(p)]. *)
Theorem join_dirname_basename_normalize (p : str) :
  p <> [] ->
  roadpath.normalize (roadpath.join [roadpath.dirname p; roadpath.basename p])
  = roadpath.normalize p.
Proof.
  intros _. rewrite join_dirname_basename. apply normpath_to_str.
Qed.

Lemma join_dirname_basename_normalize_witness :
  roadpath.normalize
    (roadpath.join [roadpath.dirname "/a//b/./c.txt";
                    roadpath.basename "/a//b/./c.txt"])
  = roadpath.normalize "/a//b/./c.txt".
Proof.
  apply (join_dirname_basename_normalize "/a//b/./c.txt"). discriminate.
Defined.

(** ** splitext *)

Lemma name_of_str (s r : str) (tail : list str) :
  _parse_path s = ([], r, tail) -> name (of_str s) = last tail [].
Proof.
  intros E. unfold of_str, of_segments. simpl joined_raw. now rewrite E.
Qed.

Lemma suffix_split (nm : str) (i : nat) :
  suffix_at nm = Some i ->
  0 < i < List.length nm /\ nm = firstn i nm ++ skipn i nm.
Proof.
  unfold suffix_at. destruct (rfind "." nm) as [j|]; [|discriminate].
  destruct ((0 <? j) && (j <? List.length nm - 1)) eqn:E; [|discriminate].
  intros H. inversion H; subst.
  apply andb_true_iff in E as [E1 E2].
  apply Nat.ltb_lt in E1, E2. split; [lia|].
  symmetry. apply firstn_skipn.
Qed.

Lemma truthy_length (s : str) : truthy s = true <-> 0 < List.length s.
Proof. destruct s; simpl; split; intros; try lia; congruence. Qed.

Lemma join_snoc_truthy (init : list str) (x : str) :
  truthy x = true -> truthy (Py.join sep (init ++ [x])) = true.
Proof.
  intros Hx. destruct init as [|y init]; [assumption|].
  rewrite join_snoc by discriminate.
  rewrite truthy_app. simpl. apply orb_true_r.
Qed.

Lemma render_snoc (r : str) (init : list str) (x : str) :
  is_root r = true -> truthy x = true ->
  render r (init ++ [x]) = r ++ Py.join sep (init ++ [x]).
Proof.
  intros Hr Hx. unfold render, or_else. rewrite (format_app _ _ Hr).
  now rewrite truthy_app, (join_snoc_truthy init x Hx), orb_true_r.
Qed.

(** The stem and the suffix [with_suffix("")] cuts a name into. *)
Lemma stem_suffix (nm : str) :
  truthy nm = true ->
  let old_suffix :=
    match suffix_at nm with Some i => slice_from i nm | None => [] end in
  let nm' :=
    if negb (truthy old_suffix) then nm ++ lit ""
    else slice 0 (List.length nm - List.length old_suffix) nm ++ lit "" in
  truthy nm' = true /\ nm' ++ old_suffix = nm.
Proof.
  intros Hnm. destruct (suffix_at nm) as [i|] eqn:E; cbv zeta.
  - apply suffix_split in E as [Hi Hcut].
    unfold slice_from, slice. simpl skipn.
    assert (Hlen : List.length (skipn i nm) = List.length nm - i)
      by apply length_skipn.
    assert (Hs : truthy (skipn i nm) = true) by (apply truthy_length; lia).
    rewrite Hs. simpl negb. cbv iota. rewrite Hlen.
    replace (List.length nm - (List.length nm - i) - 0) with i by lia.
    change (lit "") with (@nil ascii). rewrite app_nil_r. split.
    + apply truthy_length. rewrite length_firstn. lia.
    + now rewrite <- Hcut.
  - simpl. change (lit "") with (@nil ascii). rewrite !app_nil_r. now split.
Qed.

(** What [splitext(p)] does, by the final component of [p]: when it is
    empty the call raises [ValueError]; otherwise it returns a root and an
    extension whose concatenation is the rendering of [p], so that
    [basename(root + extension)] equals [basename(p)]. *)
Lemma splitext_recombines (p : str) :
  if truthy (roadpath.basename p) then
    exists rt ext,
      roadpath.splitext p = Ok (rt, ext)
      /\ rt ++ ext = to_str (of_str p)
      /\ roadpath.basename (rt ++ ext) = roadpath.basename p
  else roadpath.splitext p = Raise (Builtin ValueError).
Proof.
  unfold roadpath.basename, roadpath.splitext.
  destruct (of_str_parts p) as (r & tail & EP & Hp & Hr & Ht).
  rewrite EP. unfold with_suffix, suffix, name. simpl _tail.
  simpl drive. simpl root.
  change (contains sep (lit "")) with false.
  change (truthy (lit "") && negb (startswith (lit ".") (lit ""))
          || str_eqb (lit "") (lit ".")) with false.
  cbv iota.
  destruct (truthy (last tail [])) eqn:Hnm; simpl negb; cbv iota;
    [|reflexivity].
  assert (Hne : tail <> []) by (intros ->; discriminate).
  destruct (exists_last Hne) as (init & nm & ->).
  rewrite last_last in *. rewrite removelast_last.
  destruct (stem_suffix nm Hnm) as [Hstem Hcat]. cbv zeta in Hstem, Hcat.
  set (old_suffix := match suffix_at nm with
                     | Some i => slice_from i nm
                     | None => []
                     end) in *.
  set (nm' := if negb (truthy old_suffix) then nm ++ lit ""
              else slice 0 (List.length nm - List.length old_suffix) nm
                   ++ lit "") in *.
  exists (render r (init ++ [nm'])), old_suffix.
  assert (Hsum : render r (init ++ [nm']) ++ old_suffix
                 = to_str (mkPath [p] [] r (init ++ [nm]) None)).
  { change (to_str (mkPath [p] [] r (init ++ [nm]) None))
      with (render r (init ++ [nm])).
    pose proof (render_snoc r init nm' Hr Hstem) as R1.
    pose proof (render_snoc r init nm Hr Hnm) as R2.
    pose proof (join_snoc_app sep init nm' old_suffix) as J.
    unfold str in *. rewrite R1, R2, <- app_assoc, <- J. now rewrite Hcat. }
  split; [reflexivity|]. split; [exact Hsum|].
  rewrite Hsum, <- EP.
  change (name (of_str (to_str (of_str p))) = nm).
  rewrite (name_of_str _ r (init ++ [nm])); [now rewrite last_last|].
  now rewrite parse_to_str.
Qed.

(** C5. [splitext] does not return on every path string.  On ["/"], on
    [""] and on ["."] it raises [ValueError], the guard of
    [with_suffix("")] against an empty name, although the final component
    of each is the empty string, which a root and an empty extension
    would recombine to, and although [split] returns a pair on the same
    inputs.  It raises exactly on the strings whose final component is
    empty; on every other string it returns a root and an extension with
    [basename(root + extension)] equal to [basename(p)]. *)
Theorem splitext_raises_on_empty_name :
  roadpath.splitext "/" = Raise (Builtin ValueError)
  /\ roadpath.splitext "" = Raise (Builtin ValueError)
  /\ roadpath.splitext "." = Raise (Builtin ValueError)
  /\ roadpath.basename "/" = lit ""
  /\ roadpath.split "/" = (lit "/", lit "")
  /\ roadpath.split "" = (lit ".", lit "")
  /\ (forall p : str,
        roadpath.splitext p = Raise (Builtin ValueError)
        <-> roadpath.basename p = lit "")
  /\ (forall p : str,
        roadpath.basename p <> lit "" ->
        exists rt ext,
          roadpath.splitext p = Ok (rt, ext)
          /\ roadpath.basename (rt ++ ext) = roadpath.basename p).
Proof.
  repeat (split; [reflexivity|]). split.
  - intros p. pose proof (splitext_recombines p) as H.
    destruct (roadpath.basename p) as [|c nm] eqn:E; simpl in H.
    + split; [reflexivity|now intros _].
    + destruct H as (rt & ext & -> & _). split; discriminate.
  - intros p Hne. pose proof (splitext_recombines p) as H.
    destruct (roadpath.basename p) as [|c nm] eqn:E; simpl in H.
    + now elim Hne.
    + destruct H as (rt & ext & H1 & _ & H2). now exists rt, ext.
Qed.

(** ** relative_to *)

Lemma forallb_firstn {A} (f : A -> bool) (n : nat) (l : list A) :
  forallb f l = true -> forallb f (firstn n l) = true.
Proof.
  revert n. induction l as [|x l IH]; intros [|n]; simpl; auto.
  intros [Hx Hl]%andb_true_iff. rewrite Hx. now apply IH.
Qed.

Lemma is_prefix_refl (l : list str) : is_prefix l l = true.
Proof.
  induction l as [|x l IH]; simpl; [reflexivity|].
  now rewrite str_eqb_refl.
Qed.

Lemma is_prefix_firstn (n : nat) (l : list str) : is_prefix (firstn n l) l = true.
Proof.
  revert n. induction l as [|x l IH]; intros [|n]; simpl; auto.
  rewrite str_eqb_refl. apply IH.
Qed.

Lemma is_prefix_firstn_inv (a b : list str) :
  is_prefix a b = true ->
  a = firstn (List.length a) b /\ List.length a <= List.length b.
Proof.
  revert b. induction a as [|x a IH]; intros [|y b]; simpl;
    try discriminate; try (split; [reflexivity|lia]).
  intros [E H]%andb_true_iff. apply str_eqb_eq in E. subst y.
  destruct (IH b H) as [Hcut Hlen]. split; [now rewrite <- Hcut|lia].
Qed.

(** Converting a path object built from a string gives it back. *)
Lemma with_segments_of_str (b : str) :
  with_segments [SegPath (of_str b)] = of_str b.
Proof.
  destruct (of_str_parts b) as (r & tail & E & _).
  unfold with_segments. simpl. now rewrite E.
Qed.

(** What [is_relative_to] decides, on parsed strings: same root, and the
    components of the base lead those of the path. *)
Lemma is_relative_to_spec (s b r rb : str) (tail tb : list str) :
  _parse_path s = ([], r, tail) -> _parse_path b = ([], rb, tb) ->
  (is_relative_to (of_str s) (of_str b) = true
   <-> rb = r /\ is_prefix tb tail = true).
Proof.
  intros Hs Hb.
  destruct (parse_clean s) as (r' & tail' & Hs' & Hr & Ht).
  destruct (parse_clean b) as (rb' & tb' & Hb' & Hrb & Htb).
  assert (r' = r /\ tail' = tail) as [-> ->] by (split; congruence).
  assert (rb' = rb /\ tb' = tb) as [-> ->] by (split; congruence).
  clear Hs' Hb'.
  unfold of_str, of_segments. simpl joined_raw. rewrite Hs, Hb.
  unfold is_relative_to, pathlib.eqb, parents. simpl _tail. simpl drive.
  simpl root. split.
  - intros [E|E]%orb_true_iff.
    + apply str_eqb_eq in E.
      change (render rb tb = render r tail) in E.
      apply render_inj in E as [-> ->]; try assumption.
      split; [reflexivity|apply is_prefix_refl].
    + apply existsb_exists in E as (q & Hq & E).
      apply in_map_iff in Hq as (idx & <- & _).
      apply str_eqb_eq in E. unfold drop_last in E.
      set (n := List.length tail - S idx) in E.
      change (render rb tb = render r (firstn n tail)) in E.
      apply render_inj in E as [-> ->]; try assumption.
      * split; [reflexivity|apply is_prefix_firstn].
      * now apply forallb_firstn.
  - intros [-> Hpre]. apply is_prefix_firstn_inv in Hpre as [Hcut Hlen].
    apply orb_true_iff.
    destruct (Nat.eq_dec (List.length tb) (List.length tail)) as [E|E].
    + left. rewrite E, firstn_all in Hcut. subst tb. apply str_eqb_refl.
    + right. apply existsb_exists.
      set (idx := List.length tail - List.length tb - 1).
      exists (_from_parsed_parts [] r (drop_last (S idx) tail)). split.
      * apply in_map_iff. exists idx. split; [reflexivity|].
        apply in_seq. unfold idx. lia.
      * unfold drop_last.
        replace (List.length tail - S idx) with (List.length tb)
          by (unfold idx; lia).
        rewrite <- Hcut. apply str_eqb_refl.
Qed.

Lemma parts_of_str (s r : str) (tail : list str) :
  _parse_path s = ([], r, tail) ->
  parts (of_str s) = if truthy r then r :: tail else tail.
Proof.
  intros E. unfold of_str, of_segments. simpl joined_raw. now rewrite E.
Qed.

Lemma tail_of_str (s r : str) (tail : list str) :
  _parse_path s = ([], r, tail) -> _tail (of_str s) = tail.
Proof.
  intros E. unfold of_str, of_segments. simpl joined_raw. now rewrite E.
Qed.

(** [is_descendant] on parsed strings. *)
Lemma is_descendant_spec (s b r rb : str) (tail tb : list str) :
  _parse_path s = ([], r, tail) -> _parse_path b = ([], rb, tb) ->
  is_descendant (roadpath.RoadPath_ s) (roadpath.RoadPath_ b)
  = str_eqb rb r && is_prefix tb tail.
Proof.
  intros Hs Hb. unfold is_descendant, anchored_parts.
  change (roadpath._path (roadpath.RoadPath_ s)) with (of_str s).
  change (roadpath._path (roadpath.RoadPath_ b)) with (of_str b).
  unfold of_str, of_segments. simpl joined_raw. rewrite Hs, Hb.
  reflexivity.
Qed.

(** [is_relative_to] decides exactly [is_descendant]. *)
Lemma is_relative_to_descendant (s b : str) :
  is_relative_to (of_str s) (of_str b)
  = is_descendant (roadpath.RoadPath_ s) (roadpath.RoadPath_ b).
Proof.
  destruct (parse_clean s) as (r & tail & Hs & _).
  destruct (parse_clean b) as (rb & tb & Hb & _).
  rewrite (is_descendant_spec s b r rb tail tb Hs Hb).
  pose proof (is_relative_to_spec s b r rb tail tb Hs Hb) as [H1 H2].
  destruct (is_relative_to (of_str s) (of_str b)).
  - destruct (H1 eq_refl) as [-> ->]. now rewrite str_eqb_refl.
  - destruct (str_eqb rb r) eqn:E; [|reflexivity].
    apply str_eqb_eq in E.
    destruct (is_prefix tb tail); [|reflexivity].
    discriminate (H2 (conj E eq_refl)).
Qed.

Lemma relative_to_outside (s b : str) :
  is_descendant (roadpath.RoadPath_ s) (roadpath.RoadPath_ b) = false ->
  relative_to (of_str s) (of_str b) = PRaise ValueError.
Proof.
  intros H. unfold relative_to.
  now rewrite is_relative_to_descendant, H.
Qed.

Lemma relative_to_inside (s b : str) :
  is_descendant (roadpath.RoadPath_ s) (roadpath.RoadPath_ b) = true ->
  exists rel, relative_to (of_str s) (of_str b) = POk rel.
Proof.
  intros H. unfold relative_to.
  rewrite is_relative_to_descendant, H. eexists. reflexivity.
Qed.

(** *** Segments that are clean components *)

Lemma join_step_clean (pre : list str) (x : str) :
  pre <> [] -> forallb is_clean pre = true -> is_clean x = true ->
  posixpath.join_step (Py.join sep pre) x = Py.join sep (pre ++ [x]).
Proof.
  intros Hne Hpre Hx. unfold posixpath.join_step.
  rewrite (clean_no_lead _ Hx).
  destruct (join_last_char pre Hne Hpre) as (s & c & E & Hc).
  assert (Htr : truthy (Py.join sep pre) = true).
  { rewrite E. now destruct s. }
  assert (Hends : endswith "/" (Py.join sep pre) = false).
  { rewrite E, endswith_sep_snoc. apply Ascii.eqb_neq. intros <-. now apply Hc. }
  rewrite Htr, Hends. simpl. now rewrite join_snoc.
Qed.

Lemma fold_join_clean (comps pre : list str) :
  pre <> [] -> forallb is_clean pre = true -> forallb is_clean comps = true ->
  fold_left posixpath.join_step comps (Py.join sep pre)
  = Py.join sep (pre ++ comps).
Proof.
  revert pre. induction comps as [|x comps IH]; intros pre Hne Hpre Hc.
  - now rewrite app_nil_r.
  - simpl in Hc. apply andb_true_iff in Hc as [Hx Hc]. simpl.
    rewrite (join_step_clean pre x Hne Hpre Hx).
    rewrite IH; [now rewrite <- app_assoc| |  |assumption].
    + now destruct pre.
    + rewrite forallb_app, Hpre. simpl. now rewrite Hx.
Qed.

Lemma joined_raw_clean (l : list str) :
  forallb is_clean l = true -> joined_raw l = Py.join sep l.
Proof.
  intros H. destruct l as [|a [|b l]]; [reflexivity|reflexivity|].
  unfold joined_raw, posixpath.join.
  simpl in H. apply andb_true_iff in H as [Ha H].
  change a with (Py.join sep [a]) at 1.
  apply (fold_join_clean (b :: l) [a]); [discriminate| |assumption].
  simpl. now rewrite Ha.
Qed.

Lemma of_segments_clean (l : list str) :
  forallb is_clean l = true -> of_segments l = mkPath l [] [] l None.
Proof.
  intros H. unfold of_segments. rewrite (joined_raw_clean l H).
  rewrite <- format_relative. now rewrite (parse_format [] l eq_refl H).
Qed.

Lemma forallb_skipn {A} (f : A -> bool) (n : nat) (l : list A) :
  forallb f l = true -> forallb f (skipn n l) = true.
Proof.
  revert n. induction l as [|x l IH]; intros [|n]; simpl; auto.
  intros [_ Hl]%andb_true_iff. now apply IH.
Qed.

(** What [relative_to] returns completes the base to the path. *)
Lemma relative_to_completes (s b : str) (rel : Path) :
  relative_to (of_str s) (of_str b) = POk rel ->
  parts (of_str b) ++ parts (with_segments [SegPath rel]) = parts (of_str s).
Proof.
  unfold relative_to.
  destruct (is_relative_to (of_str s) (of_str b)) eqn:E; [|discriminate].
  destruct (parse_clean s) as (r & tail & Hs & Hr & Ht).
  destruct (parse_clean b) as (rb & tb & Hb & Hrb & Htb).
  destruct (proj1 (is_relative_to_spec s b r rb tail tb Hs Hb) E) as [Erb Hpre].
  subst rb.
  rewrite (parts_of_str _ _ _ Hs), (parts_of_str _ _ _ Hb).
  rewrite (tail_of_str _ _ _ Hs), (tail_of_str _ _ _ Hb).
  pose proof (forallb_skipn is_clean (List.length tb) tail Ht) as Hrest.
  rewrite (of_segments_clean _ Hrest). intros H. inversion H; subst rel.
  unfold with_segments. simpl flat_map. rewrite app_nil_r.
  rewrite (of_segments_clean _ Hrest). unfold parts at 1. simpl.
  apply is_prefix_firstn_inv in Hpre as [Hcut _].
  assert (Hsum : tb ++ skipn (List.length tb) tail = tail).
  { rewrite Hcut at 1. apply firstn_skipn. }
  destruct (truthy r); simpl; now rewrite Hsum.
Qed.

(** C6. [RoadPath("/a/b/c").relative_to("/a")] returns a value equal to
    [RoadPath("b/c")]; for every path that is not a descendant of the
    base, [relative_to] raises the [ValueError] of [Path.relative_to]
    instead of returning, the base being given as a string, as a path
    object or as a [RoadPath]; for every path that is a descendant of the
    base it returns; and what it returns completes the components of the
    base to those of the receiver. *)
Theorem relative_to_descendant :
  (exists rel,
     roadpath.RoadPath.relative_to (roadpath.RoadPath_ "/a/b/c") (roadpath.AStr "/a")
     = Ok rel
     /\ RoadPath_eq rel (roadpath.RoadPath_ "b/c") = true)
  /\ (forall s b : str,
        is_descendant (roadpath.RoadPath_ s) (roadpath.RoadPath_ b) = false ->
        roadpath.RoadPath.relative_to (roadpath.RoadPath_ s) (roadpath.AStr b)
        = Raise (Builtin ValueError)
        /\ roadpath.RoadPath.relative_to (roadpath.RoadPath_ s)
             (roadpath.APath (of_str b))
           = Raise (Builtin ValueError)
        /\ roadpath.RoadPath.relative_to (roadpath.RoadPath_ s)
             (roadpath.ARoadPath (roadpath.RoadPath_ b))
           = Raise (Builtin ValueError))
  /\ (forall s b : str,
        is_descendant (roadpath.RoadPath_ s) (roadpath.RoadPath_ b) = true ->
        exists rel,
          roadpath.RoadPath.relative_to (roadpath.RoadPath_ s) (roadpath.AStr b)
          = Ok rel)
  /\ (forall (s b : str) (rel : roadpath.RoadPath),
        roadpath.RoadPath.relative_to (roadpath.RoadPath_ s) (roadpath.AStr b)
        = Ok rel ->
        roadpath.RoadPath.parts (roadpath.RoadPath_ b) ++ roadpath.RoadPath.parts rel
        = roadpath.RoadPath.parts (roadpath.RoadPath_ s)).
Proof.
  split; [|split; [|split]].
  - eexists. split; [vm_compute; reflexivity|vm_compute; reflexivity].
  - intros s b H. apply relative_to_outside in H.
    unfold roadpath.RoadPath.relative_to, relative_to_arg.
    change (roadpath._path (roadpath.RoadPath_ s)) with (of_str s).
    change (roadpath._path (roadpath.RoadPath_ b)) with (of_str b).
    rewrite with_segments_of_str.
    change (with_segments [SegStr b]) with (of_str b).
    now rewrite H.
  - intros s b Hd.
    destruct (relative_to_inside s b Hd) as (q & E).
    unfold roadpath.RoadPath.relative_to, relative_to_arg.
    change (roadpath._path (roadpath.RoadPath_ s)) with (of_str s).
    change (with_segments [SegStr b]) with (of_str b).
    rewrite E. simpl. eexists. reflexivity.
  - intros s b rel.
    unfold roadpath.RoadPath.relative_to, relative_to_arg.
    change (roadpath._path (roadpath.RoadPath_ s)) with (of_str s).
    change (with_segments [SegStr b]) with (of_str b).
    destruct (relative_to (of_str s) (of_str b)) as [q|e] eqn:E;
      [|discriminate].
    simpl. intros H. inversion H; subst rel.
    apply (relative_to_completes s b q E).
Qed.

Lemma relative_to_descendant_witness :
  is_descendant (roadpath.RoadPath_ "/a/b/c") (roadpath.RoadPath_ "/z") = false
  /\ roadpath.RoadPath.relative_to (roadpath.RoadPath_ "/a/b/c") (roadpath.AStr "/z")
     = Raise (Builtin ValueError).
Proof.
  split; [reflexivity|].
  apply (proj1 (proj2 relative_to_descendant) "/a/b/c" "/z"). reflexivity.
Defined.

(** A rooted path is under no relative base: against the empty base
    [relative_to] raises, and a relative path comes back as it is. *)
Lemma relative_to_empty_base :
  is_descendant (roadpath.RoadPath_ "/a/b") (roadpath.RoadPath_ "") = false
  /\ roadpath.RoadPath.relative_to (roadpath.RoadPath_ "/a/b") (roadpath.AStr "")
     = Raise (Builtin ValueError)
  /\ is_descendant (roadpath.RoadPath_ "a/b") (roadpath.RoadPath_ ".") = true
  /\ exists rel,
       roadpath.RoadPath.relative_to (roadpath.RoadPath_ "a/b") (roadpath.AStr ".")
       = Ok rel
       /\ RoadPath_eq rel (roadpath.RoadPath_ "a/b") = true.
Proof.
  split; [reflexivity|]. split; [reflexivity|]. split; [reflexivity|].
  eexists. split; vm_compute; reflexivity.
Qed.

(** ** Exceptions *)

Lemma propagate_not_PathError {A} (m : presult A) (e : exn) :
  propagate m = Raise e -> e <> PathError.
Proof. destruct m; simpl; intros H; inversion H; discriminate. Qed.

Lemma raised_propagate {A} (m : presult A) :
  roadpath.raised (propagate m) <> Some PathError.
Proof. destruct m; simpl; discriminate. Qed.

Lemma raised_value {A} (a : A) : roadpath.value a <> Some PathError.
Proof. discriminate. Qed.

Lemma example_usage_not_PathError (w : roadpath.world) :
  roadpath.raised (roadpath.example_usage w) <> Some PathError.
Proof.
  unfold roadpath.example_usage.
  destruct (roadpath.RoadPath.home w) as [h|e] eqn:Eh.
  - destruct (roadpath.RoadPath.cwd w) as [c|e] eqn:Ec.
    + destruct (roadpath.RoadPath.absolute w c) as [a|e] eqn:Ea.
      * destruct (roadpath.splitext "/a/b/c.tar.gz") as [[r x]|e] eqn:Es.
        -- discriminate.
        -- vm_compute in Es. discriminate.
      * apply propagate_not_PathError in Ea. simpl. congruence.
    + apply propagate_not_PathError in Ec. simpl. congruence.
  - apply propagate_not_PathError in Eh. simpl. congruence.
Qed.

(** C7. No operation of the module (method of [RoadPath], free function
    or method of [PathBuilder]) raises [PathError], whatever its
    arguments and whatever the process and the file system answer: what
    an operation raises is what a primitive raised. *)
Theorem PathError_never_raised (w : roadpath.world) (c : roadpath.call) :
  roadpath.outcome w c <> Some PathError.
Proof.
  destruct c; unfold roadpath.outcome;
    first [ apply raised_value
          | apply raised_propagate
          | apply example_usage_not_PathError ].
Qed.

(** ** expand *)

Lemma take_word_length (r : str) :
  List.length (posixpath.take_word r) <= List.length r.
Proof.
  induction r as [|c r IH]; simpl; [lia|].
  destruct (posixpath.is_word c); simpl; lia.
Qed.

Lemma find_from_bound (c : ascii) (s : str) (i k : nat) :
  find_from c i s = Some k -> i <= k < List.length s.
Proof.
  revert i k. induction s as [|d s IH]; intros i k; simpl; [discriminate|].
  destruct i as [|i].
  - destruct (Ascii.eqb d c).
    + intros H. inversion H. lia.
    + destruct (find_from c 0 s) as [j|] eqn:E; simpl; [|discriminate].
      intros H. inversion H. apply IH in E. lia.
  - destruct (find_from c i s) as [j|] eqn:E; simpl; [|discriminate].
    intros H. inversion H. apply IH in E. lia.
Qed.

Lemma match_here_bound (s g : str) (n : nat) :
  posixpath.match_here s = Some (n, g) -> 0 < n <= List.length s.
Proof.
  unfold posixpath.match_here. destruct s as [|c r]; [discriminate|].
  destruct (Ascii.eqb c "$"); [|discriminate].
  destruct (truthy (posixpath.take_word r)).
  - intros H. inversion H. pose proof (take_word_length r). simpl. lia.
  - destruct r as [|b r']; [discriminate|].
    destruct (Ascii.eqb b "{"); [|discriminate].
    destruct (find_from "}" 0 r') as [k|] eqn:E; [|discriminate].
    intros H. inversion H. apply find_from_bound in E. simpl. lia.
Qed.

Lemma search_here_bound (s g : str) (pos a b : nat) :
  posixpath.search_here s pos = Some (a, b, g) ->
  pos <= a /\ a < b /\ b <= pos + List.length s.
Proof.
  revert pos. induction s as [|c s IH]; intros pos.
  - simpl. discriminate.
  - unfold posixpath.search_here. fold posixpath.search_here.
    destruct (posixpath.match_here (c :: s)) as [[n h]|] eqn:E.
    + intros H. inversion H; subst. apply match_here_bound in E. lia.
    + intros H. apply IH in H. simpl. lia.
Qed.

Lemma search_bound (path g : str) (i a b : nat) :
  posixpath.search path i = Some (a, b, g) ->
  i <= a /\ a < b /\ b <= List.length path.
Proof.
  unfold posixpath.search. intros H. apply search_here_bound in H.
  rewrite length_skipn in H. lia.
Qed.

(** The loop of [expandvars] ends by its [break]: past the length of what
    is left to scan, more fuel changes nothing. *)
Lemma expandvars_loop_fuel (env : list (str * str)) (f1 f2 : nat)
    (path : str) (i : nat) :
  List.length path - i < f1 -> List.length path - i < f2 ->
  posixpath.expandvars_loop f1 env path i
  = posixpath.expandvars_loop f2 env path i.
Proof.
  revert f2 path i. induction f1 as [|f1 IH]; intros f2 path i H1 H2; [lia|].
  destruct f2 as [|f2]; [lia|]. simpl.
  destruct (posixpath.search path i) as [[[a b] g]|] eqn:E; [|reflexivity].
  apply search_bound in E.
  match goal with
  | |- context [os.lookup ?n env] => destruct (os.lookup n env) as [v|]
  end.
  - apply IH; unfold slice, slice_from;
      rewrite !length_app, length_skipn; lia.
  - apply IH; lia.
Qed.

Lemma expandvars_fuel (w : os.process) (path : str) (fuel : nat) :
  List.length path < fuel ->
  contains "$" path = true ->
  posixpath.expandvars w path
  = posixpath.expandvars_loop fuel (os.environ w) path 0.
Proof.
  intros H Hc. unfold posixpath.expandvars. rewrite Hc. simpl negb. cbv iota.
  apply expandvars_loop_fuel; lia.
Qed.

(** C8. [expand(p)] is [expandvars(expanduser(p))], the tilde expanded
    first and the variables second; the other order is another function,
    as a variable whose value is a tilde shows. *)
Theorem expand_user_then_vars :
  (forall (w : roadpath.world) (p : str),
     roadpath.expand w p = roadpath.expandvars w (roadpath.expanduser w p))
  /\ roadpath.expand example_world "$T" = lit "~"
  /\ roadpath.expanduser example_world (roadpath.expandvars example_world "$T")
     = lit "/home/road".
Proof. split; [reflexivity|]. split; vm_compute; reflexivity. Qed.

(** ** Equality with a foreign object *)

(** C9. For every [RoadPath] value [p] and every object [x] that is not a
    [RoadPath], a string or a [Path], [p == x] returns [False]. *)
Theorem eq_foreign_is_False (p : roadpath.RoadPath) (x : roadpath.object) :
  roadpath.isinstance_RoadPath x = false ->
  roadpath.isinstance_str_or_Path x = false ->
  roadpath.RoadPath.__eq__ p x = false.
Proof. destruct x; simpl; intros H1 H2; congruence. Qed.

Lemma eq_foreign_is_False_witness :
  roadpath.RoadPath.__eq__ (roadpath.RoadPath_ "/a") (roadpath.OBytes (lit "/a"))
  = false.
Proof.
  apply (eq_foreign_is_False (roadpath.RoadPath_ "/a") (roadpath.OBytes (lit "/a")));
    reflexivity.
Defined.

(** ** relative *)



(** * Further properties of the module *)

(** ** Parsing, explicitly *)

Lemma split_app (c : ascii) (x rest : str) :
  split c (x ++ c :: rest) = split c x ++ split c rest.
Proof.
  induction x as [|d x IH]; simpl.
  - now rewrite Ascii.eqb_refl.
  - destruct (Ascii.eqb d c); [now rewrite IH|].
    rewrite IH. pose proof (split_not_nil c x) as Hne.
    now destruct (split c x).
Qed.

Lemma filter_kept_split_sep (rel : str) :
  filter kept (split sep (sep :: rel)) = filter kept (split sep rel).
Proof. reflexivity. Qed.

(** The root only depends on the leading separators, the components on
    no root at all. *)
Lemma lead_sep (r : str) : lead (sep :: r) = S (lead r).
Proof. reflexivity. Qed.

Lemma parse_explicit (s : str) :
  _parse_path s = ([], root_by_lead (lead s), filter kept (split sep s)).
Proof.
  assert (Hrel : forall c r, c <> sep -> startswith "/" (c :: r) = false).
  { intros c r Hc. simpl. rewrite andb_true_r. apply Ascii.eqb_neq.
    intros E. apply Hc. now rewrite <- E. }
  assert (Hlead : forall c r, c <> sep -> lead (c :: r) = 0).
  { intros c r Hc. simpl. apply Ascii.eqb_neq in Hc. now rewrite Hc. }
  destruct s as [|a s]; [reflexivity|].
  unfold _parse_path. simpl truthy. simpl negb. cbv iota.
  destruct (Ascii.eqb_spec a sep) as [->|Ha].
  2:{ now rewrite (splitroot_relative _ (Hrel a s Ha)), (Hlead a s Ha). }
  destruct s as [|b s]; [reflexivity|].
  destruct (Ascii.eqb_spec b sep) as [->|Hb].
  2:{ rewrite (splitroot_one _ (Hrel b s Hb)), lead_sep, (Hlead b s Hb).
      now rewrite filter_kept_split_sep. }
  destruct s as [|c s]; [reflexivity|].
  destruct (Ascii.eqb_spec c sep) as [->|Hc].
  - change (posixpath.splitroot (sep :: sep :: sep :: s))
      with (@nil ascii, lit "/", sep :: sep :: s).
    rewrite !lead_sep, (filter_kept_split_sep (sep :: sep :: s)).
    reflexivity.
  - rewrite (splitroot_two _ (Hrel c s Hc)), !lead_sep, (Hlead c s Hc).
    now rewrite !filter_kept_split_sep.
Qed.

Lemma lead_startswith (s : str) : startswith "/" s = negb (lead s =? 0).
Proof.
  destruct s as [|a s]; [reflexivity|]. simpl. unfold sep.
  rewrite andb_true_r, Ascii.eqb_sym. now destruct (Ascii.eqb a "/").
Qed.

Lemma root_by_lead_truthy (n : nat) : truthy (root_by_lead n) = negb (n =? 0).
Proof. destruct n as [|[|[|n]]]; reflexivity. Qed.

Lemma lead_le (a : str) : lead a <= List.length a.
Proof.
  induction a as [|c a IH]; simpl; [lia|]. destruct (Ascii.eqb c sep); lia.
Qed.

Lemma lead_app (a x : str) :
  startswith "/" x = false \/ lead a < List.length a ->
  lead (a ++ x) = lead a.
Proof.
  induction a as [|c a IH]; intros H.
  - destruct H as [H|H]; [|simpl in H; lia]. rewrite lead_startswith in H.
    apply negb_false_iff, Nat.eqb_eq in H. exact H.
  - simpl app. simpl lead. destruct (Ascii.eqb c sep) eqn:E; [|reflexivity].
    f_equal. apply IH. destruct H as [H|H]; [now left|right].
    simpl in H. rewrite E in H. lia.
Qed.

Lemma lead_all (a : str) :
  lead a = List.length a -> forall c, In c a -> c = sep.
Proof.
  induction a as [|d a IH]; simpl; [intros _ c []|].
  destruct (Ascii.eqb_spec d sep) as [->|Hd]; [|discriminate].
  intros H c [<-|Hc]; [reflexivity|]. apply IH; [lia|assumption].
Qed.

Lemma endswith_sep_false_lead (a : str) :
  a <> [] -> endswith "/" a = false -> lead a < List.length a.
Proof.
  intros Hne He. pose proof (lead_le a) as Hle.
  destruct (Nat.eq_dec (lead a) (List.length a)) as [E|E]; [|lia].
  exfalso. destruct (exists_last Hne) as (a' & d & ->).
  rewrite endswith_sep_snoc in He.
  assert (d = sep) by (apply (lead_all _ E), in_or_app; right; now left).
  subst d. now rewrite Ascii.eqb_refl in He.
Qed.

Lemma endswith_sep_true (a : str) :
  endswith "/" a = true -> exists a', a = a' ++ [sep].
Proof.
  destruct a as [|c a] using rev_ind; [discriminate|].
  rewrite endswith_sep_snoc. intros H%Ascii.eqb_eq. subst. now exists a.
Qed.

Lemma filter_kept_split_snoc_sep (a : str) :
  filter kept (split sep (a ++ [sep])) = filter kept (split sep a).
Proof.
  rewrite split_app, filter_app. simpl. apply app_nil_r.
Qed.

(** ** The law of joining *)

(** A segment that starts with the separator replaces what came before. *)
Lemma join_step_absolute (a b : str) :
  startswith "/" b = true -> posixpath.join_step a b = b.
Proof. unfold posixpath.join_step. now intros ->. Qed.

(** Any other segment adds its components and keeps the root. *)
Lemma parse_join_step_relative (a b : str) :
  startswith "/" b = false ->
  _parse_path (posixpath.join_step a b)
  = ([], root_by_lead (lead a),
     filter kept (split sep a) ++ filter kept (split sep b)).
Proof.
  intros Hb. rewrite parse_explicit. unfold posixpath.join_step. rewrite Hb.
  destruct (truthy a) eqn:Ht.
  - assert (Hne : a <> []) by (intros ->; discriminate).
    simpl negb. simpl orb.
    destruct (endswith ["/"%char] a) eqn:He;
      change ["/"%char] with (lit "/") in He.
    + rewrite lead_app by now left.
      destruct (endswith_sep_true _ He) as (a' & E). rewrite E.
      rewrite <- app_assoc. simpl app.
      now rewrite split_app, filter_app, filter_kept_split_snoc_sep.
    + rewrite lead_app
        by (right; apply endswith_sep_false_lead; assumption).
      now rewrite split_app, filter_app.
  - destruct a; [|discriminate]. simpl. rewrite lead_startswith in Hb.
    apply negb_false_iff, Nat.eqb_eq in Hb. now rewrite Hb.
Qed.

Lemma joined_raw_cons (a : str) (l : list str) :
  joined_raw (a :: l) = fold_left posixpath.join_step l a.
Proof. now destruct l. Qed.

Lemma raw_of_segments (l : list str) : _raw_paths (of_segments l) = l.
Proof.
  unfold of_segments. now destruct (_parse_path (joined_raw l)) as [[d r] t].
Qed.

Lemma to_str_of_segments (l : list str) :
  to_str (of_segments l) = to_str (of_str (joined_raw l)).
Proof.
  unfold of_str, of_segments. simpl joined_raw.
  now destruct (_parse_path (joined_raw l)) as [[d r] t].
Qed.

Lemma parts_of_segments (l : list str) :
  parts (of_segments l) = parts (of_str (joined_raw l)).
Proof.
  unfold of_str, of_segments. simpl joined_raw.
  now destruct (_parse_path (joined_raw l)) as [[d r] t].
Qed.

(** What [RoadPath(a) / b] wraps. *)
Lemma truediv_of_segments (a b : str) :
  roadpath.RoadPath.__truediv__ (roadpath.RoadPath_ a) (SegStr b)
  = roadpath.mkRoadPath (of_segments [a; b]).
Proof.
  unfold roadpath.RoadPath.__truediv__, roadpath.RoadPath.__init__, joinpath,
    with_segments.
  change (roadpath._path (roadpath.RoadPath_ a)) with (of_str a).
  simpl flat_map. unfold of_str. rewrite !raw_of_segments. reflexivity.
Qed.

(** What [RoadPath(a).join] wraps, applied to the segments [xs]. *)
Lemma join_of_segments (a : str) (xs : list str) :
  roadpath.RoadPath.join (roadpath.RoadPath_ a) xs
  = roadpath.mkRoadPath (of_segments (a :: xs)).
Proof.
  unfold roadpath.RoadPath.join, roadpath.RoadPath.__init__, joinpath,
    with_segments.
  change (roadpath._path (roadpath.RoadPath_ a)) with (of_str a).
  simpl flat_map. unfold of_str. rewrite !raw_of_segments, app_nil_r.
  simpl app. f_equal. f_equal. f_equal.
  induction xs as [|x xs IH]; simpl; [reflexivity|now rewrite IH].
Qed.

Lemma parts_explicit (s : str) :
  parts (of_str s)
  = if startswith "/" s
    then root_by_lead (lead s) :: filter kept (split sep s)
    else filter kept (split sep s).
Proof.
  rewrite (parts_of_str s _ _ (parse_explicit s)).
  now rewrite root_by_lead_truthy, lead_startswith.
Qed.

Lemma RoadPath_eq_to_str (p q : roadpath.RoadPath) :
  RoadPath_eq p q = true
  <-> roadpath.RoadPath.__str__ p = roadpath.RoadPath.__str__ q.
Proof. apply str_eqb_eq. Qed.

Lemma to_str_parse (s r : str) (tail : list str) :
  _parse_path s = ([], r, tail) -> to_str (of_str s) = render r tail.
Proof.
  intros E. unfold of_str, of_segments. simpl joined_raw. now rewrite E.
Qed.

(** X1. [RoadPath(a) / b]: a segment [b] that starts with the separator
    replaces [a], the result is equal to [RoadPath(b)]; any other segment
    adds its components after those of [a]. *)
Theorem truediv_components (a b : str) :
  let joined := roadpath.RoadPath.__truediv__ (roadpath.RoadPath_ a) (SegStr b) in
  if startswith "/" b
  then RoadPath_eq joined (roadpath.RoadPath_ b) = true
  else roadpath.RoadPath.parts joined
       = roadpath.RoadPath.parts (roadpath.RoadPath_ a)
         ++ roadpath.RoadPath.parts (roadpath.RoadPath_ b).
Proof.
  cbv zeta. rewrite truediv_of_segments.
  destruct (startswith "/" b) eqn:Hb.
  - apply RoadPath_eq_to_str.
    change (to_str (of_segments [a; b]) = to_str (of_str b)).
    rewrite to_str_of_segments.
    change (joined_raw [a; b]) with (posixpath.join_step a b).
    now rewrite (join_step_absolute a b Hb).
  - change (parts (of_segments [a; b]) = parts (of_str a) ++ parts (of_str b)).
    rewrite parts_of_segments.
    change (joined_raw [a; b]) with (posixpath.join_step a b).
    rewrite (parts_of_str _ _ _ (parse_join_step_relative a b Hb)).
    rewrite (parts_explicit a), (parts_explicit b), Hb.
    rewrite root_by_lead_truthy, <- lead_startswith.
    now destruct (startswith "/" a).
Qed.

(** X2. [RoadPath.join] with several segments is [/] applied segment by
    segment: [p.join(x1, ..., xn, y)] is [p.join(x1, ..., xn) / y], and
    [p.join(y)] is [p / y]. *)
Theorem join_is_repeated_truediv (p : roadpath.RoadPath) (xs : list str) (y : str) :
  roadpath.RoadPath.join p (xs ++ [y])
  = roadpath.RoadPath.__truediv__ (roadpath.RoadPath.join p xs) (SegStr y)
  /\ roadpath.RoadPath.join p [y] = roadpath.RoadPath.__truediv__ p (SegStr y).
Proof.
  assert (Hmap : forall l, flat_map raw_of (map SegStr l) = l).
  { induction l as [|x l IH]; simpl; [reflexivity|now rewrite IH]. }
  split; [|reflexivity].
  unfold roadpath.RoadPath.join, roadpath.RoadPath.__truediv__,
    roadpath.RoadPath.__init__, joinpath, with_segments.
  simpl roadpath._path. simpl flat_map.
  rewrite !raw_of_segments, !app_nil_r, !Hmap.
  now rewrite <- app_assoc.
Qed.

Lemma joined_raw_empty_first (xs : list str) :
  joined_raw ([] :: xs) = joined_raw xs.
Proof.
  destruct xs as [|x xs]; [reflexivity|].
  rewrite !joined_raw_cons. simpl fold_left. f_equal.
  unfold posixpath.join_step. now destruct (startswith "/" x).
Qed.

(** X3. The builder and [join] agree: [builder(base).add(xs...).build()]
    is equal to [RoadPath(base).join(xs...)], for an empty base too. *)
Theorem builder_add_build_is_join (base : str) (xs : list str) :
  RoadPath_eq
    (roadpath.PathBuilder.build
       (roadpath.PathBuilder.add (roadpath.builder base) xs))
    (roadpath.RoadPath.join (roadpath.RoadPath_ base) xs) = true.
Proof.
  apply RoadPath_eq_to_str. rewrite join_of_segments.
  unfold roadpath.PathBuilder.build, roadpath.PathBuilder.add, roadpath.builder,
    roadpath.PathBuilder.__init__, roadpath.RoadPath.__init__,
    roadpath.RoadPath.__str__, with_segments.
  simpl roadpath._parts. simpl roadpath._path. simpl flat_map.
  rewrite raw_of_segments, app_nil_r, !to_str_of_segments.
  destruct base as [|c base]; simpl truthy; cbv iota; [|reflexivity].
  simpl app. now rewrite joined_raw_empty_first.
Qed.

Lemma parse_join_step_parts (a b ra rb : str) (ta tb : list str) :
  _parse_path a = ([], ra, ta) -> _parse_path b = ([], rb, tb) ->
  startswith "/" b = false ->
  _parse_path (posixpath.join_step a b) = ([], ra, ta ++ tb).
Proof.
  intros Ha Hb Hrel. rewrite (parse_join_step_relative a b Hrel).
  rewrite parse_explicit in Ha, Hb. now inversion Ha; inversion Hb.
Qed.

Lemma parse_clean_component (x : str) :
  is_clean x = true -> _parse_path x = ([], [], [x]).
Proof.
  intros Hx. apply (parse_format [] [x] eq_refl). simpl. now rewrite Hx.
Qed.

Lemma parent_truediv_raw (p : roadpath.RoadPath) (y : str) :
  roadpath.RoadPath.__truediv__ (roadpath.RoadPath.parent p) (SegStr y)
  = roadpath.mkRoadPath
      (of_segments (_raw_paths (parent (roadpath._path p)) ++ [y])).
Proof.
  unfold roadpath.RoadPath.__truediv__, roadpath.RoadPath.parent,
    roadpath.RoadPath.__init__, joinpath, with_segments.
  simpl roadpath._path. simpl flat_map.
  now rewrite !raw_of_segments, !app_nil_r.
Qed.

(** X4. A path is its parent joined with its name:
    [RoadPath(s).parent / RoadPath(s).name] is equal to [RoadPath(s)], also
    when the name is empty and the parent is the path itself. *)
Theorem parent_truediv_name (s : str) :
  let p := roadpath.RoadPath_ s in
  RoadPath_eq
    (roadpath.RoadPath.__truediv__ (roadpath.RoadPath.parent p)
       (SegStr (roadpath.RoadPath.name p)))
    p = true.
Proof.
  cbv zeta. apply RoadPath_eq_to_str. rewrite parent_truediv_raw.
  change (to_str (of_segments (_raw_paths (parent (of_str s)) ++ [name (of_str s)]))
          = to_str (of_str s)).
  rewrite to_str_of_segments. apply of_str_parse_eq.
  destruct (of_str_parts s) as (r & tail & E & Hp & Hr & Ht).
  rewrite E, Hp. unfold parent, name. simpl _tail. simpl drive. simpl root.
  destruct (nonempty tail) eqn:Hne; simpl negb; cbv iota.
  - assert (Hne' : tail <> []) by (intros ->; discriminate).
    destruct (exists_last Hne') as (init & x & ->).
    rewrite removelast_last, last_last.
    rewrite forallb_app in Ht. apply andb_true_iff in Ht as [Hi Hx].
    simpl in Hx. rewrite andb_true_r in Hx.
    change (joined_raw (_raw_paths (_from_parsed_parts [] r init) ++ [x]))
      with (posixpath.join_step (_format_parsed_parts [] r init) x).
    apply (parse_join_step_parts _ _ r [] init [x]).
    + now apply parse_format.
    + now apply parse_clean_component.
    + now apply clean_no_lead.
  - destruct tail; [|discriminate].
    change (joined_raw (_raw_paths (mkPath [s] [] r [] None) ++ [last [] []]))
      with (posixpath.join_step s []).
    now rewrite (parse_join_step_parts s [] r [] [] [] Hp eq_refl eq_refl).
Qed.

(** ** relative_to, back again *)

Lemma relative_no_lead (x : str) (t : list str) :
  _parse_path x = ([], [], t) -> startswith "/" x = false.
Proof.
  rewrite parse_explicit, lead_startswith. intros H. inversion H as [[Hr Ht]].
  now destruct (lead x) as [|[|[|n]]].
Qed.

(** What [relative_to] returns, on parsed strings. *)
Lemma relative_to_result (s b r rb : str) (tail tb : list str) (q : Path) :
  _parse_path s = ([], r, tail) -> _parse_path b = ([], rb, tb) ->
  relative_to (of_str s) (of_str b) = POk q ->
  rb = r
  /\ tb ++ skipn (List.length tb) tail = tail
  /\ q = mkPath (skipn (List.length tb) tail) [] []
               (skipn (List.length tb) tail) None.
Proof.
  intros Hs Hb. unfold relative_to.
  destruct (is_relative_to (of_str s) (of_str b)) eqn:E; [|discriminate].
  destruct (proj1 (is_relative_to_spec s b r rb tail tb Hs Hb) E) as [Erb Hpre].
  destruct (parse_clean s) as (r' & tail' & Hs' & _ & Ht).
  assert (tail' = tail) by congruence. subst tail'.
  rewrite (tail_of_str _ _ _ Hs), (tail_of_str _ _ _ Hb).
  rewrite (of_segments_clean _ (forallb_skipn is_clean (List.length tb) tail Ht)).
  intros H. inversion H. split; [assumption|]. split; [|reflexivity].
  apply is_prefix_firstn_inv in Hpre as [Hcut _].
  rewrite Hcut at 1. apply firstn_skipn.
Qed.

(** X5. What [relative_to] returns leads back: whenever
    [RoadPath(s).relative_to(b)] returns [rel], [RoadPath(b) / str(rel)] is
    equal to [RoadPath(s)]. *)
Theorem relative_to_then_truediv (s b : str) (rel : roadpath.RoadPath) :
  roadpath.RoadPath.relative_to (roadpath.RoadPath_ s) (roadpath.AStr b) = Ok rel ->
  RoadPath_eq
    (roadpath.RoadPath.__truediv__ (roadpath.RoadPath_ b)
       (SegStr (roadpath.RoadPath.__str__ rel)))
    (roadpath.RoadPath_ s) = true.
Proof.
  unfold roadpath.RoadPath.relative_to, relative_to_arg.
  change (roadpath._path (roadpath.RoadPath_ s)) with (of_str s).
  change (with_segments [SegStr b]) with (of_str b).
  destruct (relative_to (of_str s) (of_str b)) as [q|e] eqn:E; [|discriminate].
  simpl. intros H. inversion H; subst rel. clear H.
  destruct (parse_clean s) as (r & tail & Hs & Hr & Ht).
  destruct (parse_clean b) as (rb & tb & Hb & Hrb & Htb).
  destruct (relative_to_result s b r rb tail tb q Hs Hb E) as (-> & Hsum & ->).
  set (comps := skipn (List.length tb) tail) in *.
  assert (Hc : forallb is_clean comps = true) by now apply forallb_skipn.
  apply RoadPath_eq_to_str. rewrite truediv_of_segments.
  unfold roadpath.RoadPath.__init__, with_segments. simpl flat_map.
  rewrite app_nil_r, (of_segments_clean _ Hc).
  change (roadpath.RoadPath.__str__
            (roadpath.mkRoadPath (mkPath comps [] [] comps None)))
    with (render [] comps).
  change (to_str (of_segments [b; render [] comps]) = to_str (of_str s)).
  rewrite to_str_of_segments. apply of_str_parse_eq.
  change (joined_raw [b; render [] comps])
    with (posixpath.join_step b (render [] comps)).
  pose proof (parse_render [] comps eq_refl Hc) as Hrel.
  rewrite (parse_join_step_parts b _ r [] tb comps Hb Hrel
             (relative_no_lead _ _ Hrel)).
  now rewrite Hsum, Hs.
Qed.

Lemma relative_to_then_truediv_witness :
  RoadPath_eq
    (roadpath.RoadPath.__truediv__ (roadpath.RoadPath_ "/a//b")
       (SegStr (roadpath.RoadPath.__str__
                  (roadpath.mkRoadPath (of_segments [lit "c"; lit "d"])))))
    (roadpath.RoadPath_ "/a/b/c/./d") = true.
Proof.
  apply (relative_to_then_truediv "/a/b/c/./d" "/a//b"
           (roadpath.mkRoadPath (of_segments [lit "c"; lit "d"]))).
  vm_compute. reflexivity.
Defined.

(** ** parent and parents *)

Lemma clean_last_truthy (init : list str) (x : str) :
  forallb is_clean (init ++ [x]) = true -> truthy x = true.
Proof.
  rewrite forallb_app. intros [_ H]%andb_true_iff. simpl in H.
  rewrite andb_true_r in H. apply is_clean_spec in H as (H & _).
  now destruct x.
Qed.

(** The name of a parsed string is empty exactly without components. *)
Lemma name_truthy (s r : str) (tail : list str) :
  _parse_path s = ([], r, tail) ->
  truthy (name (of_str s)) = nonempty tail.
Proof.
  intros Hs. rewrite (name_of_str _ _ _ Hs).
  destruct (parse_clean s) as (r' & tail' & Hs' & _ & Ht).
  assert (tail' = tail) by congruence. subst tail'.
  destruct tail as [|x0 tail0] eqn:E; [reflexivity|]. rewrite <- E in *.
  assert (Hne : tail <> []) by (rewrite E; discriminate).
  destruct (exists_last Hne) as (init & x & ->).
  rewrite last_last, (clean_last_truthy _ _ Ht). now destruct init.
Qed.

(** The wrapped parent of a path with root [r] and components [l]. *)
Lemma init_from_parsed (r : str) (l : list str) :
  is_root r = true -> forallb is_clean l = true ->
  roadpath.RoadPath.__init__ (roadpath.APath (_from_parsed_parts [] r l))
  = roadpath.mkRoadPath (mkPath [_format_parsed_parts [] r l] [] r l None).
Proof.
  intros Hr Hl. unfold roadpath.RoadPath.__init__, with_segments, of_segments.
  simpl. now rewrite (parse_format r l Hr Hl).
Qed.

(** X6. The parent of a path is the path itself exactly when its name is
    empty (a root, or the empty path [.]): [RoadPath(s).parent == RoadPath(s)]
    if and only if [RoadPath(s).name == ""]. *)
Theorem parent_fixed_iff_no_name (s : str) :
  RoadPath_eq (roadpath.RoadPath.parent (roadpath.RoadPath_ s))
              (roadpath.RoadPath_ s) = true
  <-> roadpath.RoadPath.name (roadpath.RoadPath_ s) = [].
Proof.
  destruct (of_str_parts s) as (r & tail & E & Hp & Hr & Ht).
  rewrite RoadPath_eq_to_str.
  unfold roadpath.RoadPath.parent, roadpath.RoadPath.name.
  change (roadpath._path (roadpath.RoadPath_ s)) with (of_str s).
  change (roadpath.RoadPath.__str__ (roadpath.RoadPath_ s))
    with (to_str (of_str s)).
  rewrite (name_of_str _ _ _ Hp), (to_str_parse _ _ _ Hp).
  rewrite E. unfold parent. simpl _tail. simpl drive. simpl root.
  destruct tail as [|x0 tail0] eqn:Et.
  - simpl negb. cbv iota. rewrite <- E. split; [reflexivity|intros _].
    unfold roadpath.RoadPath.__init__. rewrite with_segments_of_str.
    apply (to_str_parse _ _ _ Hp).
  - rewrite <- Et in *. assert (Hne : tail <> []) by (rewrite Et; discriminate).
    replace (nonempty tail) with true by (rewrite Et; reflexivity).
    simpl negb. cbv iota.
    destruct (exists_last Hne) as (init & x & ->).
    rewrite removelast_last, last_last.
    pose proof (clean_last_truthy _ _ Ht) as Hx.
    rewrite forallb_app in Ht. apply andb_true_iff in Ht as [Hi Hx'].
    rewrite (init_from_parsed r init Hr Hi).
    change (roadpath.RoadPath.__str__
              (roadpath.mkRoadPath
                 (mkPath [_format_parsed_parts [] r init] [] r init None)))
      with (render r init).
    split.
    + intros H. apply render_inj in H as [_ H]; try assumption.
      * apply (f_equal (@List.length str)) in H.
        rewrite length_app in H. simpl in H. lia.
      * rewrite forallb_app, Hi. exact Hx'.
    + intros ->. discriminate.
Qed.

Lemma parents_from_parts (raw : list str) (r : str) (tail : list str)
    (c : option str) :
  is_root r = true -> forallb is_clean tail = true ->
  roadpath.RoadPath.parents (roadpath.mkRoadPath (mkPath raw [] r tail c))
  = map (fun idx =>
           let l := firstn (List.length tail - S idx) tail in
           roadpath.mkRoadPath (mkPath [_format_parsed_parts [] r l] [] r l None))
        (seq 0 (List.length tail)).
Proof.
  intros Hr Ht. unfold roadpath.RoadPath.parents, parents. simpl.
  rewrite map_map. apply map_ext. intros idx. unfold drop_last.
  apply init_from_parsed; [assumption|now apply forallb_firstn].
Qed.

(** X7. [parents] is the chain of successive parents, nearest first: when
    the name of [RoadPath(s)] is empty the list is empty, and otherwise it is
    the parent followed by the parents of the parent. *)
Theorem parents_unfold (s : str) :
  let p := roadpath.RoadPath_ s in
  roadpath.RoadPath.parents p
  = if truthy (roadpath.RoadPath.name p)
    then roadpath.RoadPath.parent p
         :: roadpath.RoadPath.parents (roadpath.RoadPath.parent p)
    else [].
Proof.
  cbv zeta. destruct (of_str_parts s) as (r & tail & E & Hp & Hr & Ht).
  change (roadpath.RoadPath.name (roadpath.RoadPath_ s)) with (name (of_str s)).
  rewrite (name_truthy _ _ _ Hp).
  change (roadpath.RoadPath_ s) with (roadpath.mkRoadPath (of_str s)).
  rewrite E. rewrite (parents_from_parts _ r tail _ Hr Ht).
  destruct tail as [|x0 tail0] eqn:Et; [reflexivity|].
  rewrite <- Et in *. assert (Hne : tail <> []) by (rewrite Et; discriminate).
  replace (nonempty tail) with true by (rewrite Et; reflexivity).
  destruct (exists_last Hne) as (init & x & ->).
  rewrite forallb_app in Ht. apply andb_true_iff in Ht as [Hi _].
  unfold roadpath.RoadPath.parent, parent. simpl roadpath._path. simpl _tail.
  simpl drive. simpl root.
  replace (nonempty (init ++ [x])) with true by now destruct init.
  simpl negb. cbv iota. rewrite removelast_last.
  rewrite (init_from_parsed r init Hr Hi).
  rewrite (parents_from_parts _ r init _ Hr Hi).
  rewrite length_app. simpl List.length.
  replace (List.length init + 1) with (S (List.length init)) by lia.
  rewrite <- cons_seq, <- seq_shift, map_cons, map_map. f_equal.
  - cbv zeta. replace (S (List.length init) - 1) with (List.length init) by lia.
    rewrite firstn_app, Nat.sub_diag, firstn_all. simpl. now rewrite app_nil_r.
  - apply map_ext. intros idx. cbv zeta.
    replace (S (List.length init) - S (S idx)) with (List.length init - S idx)
      by lia.
    rewrite firstn_app.
    replace (List.length init - S idx - List.length init) with 0 by lia.
    simpl. now rewrite app_nil_r.
Qed.

(** ** Stem and suffix *)

Lemma rfind_None (c : ascii) (s : str) : rfind c s = None <-> ~ In c s.
Proof.
  induction s as [|d s IH]; simpl; [tauto|].
  destruct (rfind c s) as [i|] eqn:E.
  - split; [discriminate|]. intros H. exfalso.
    assert (Hn : ~ In c s) by tauto. apply IH in Hn. discriminate.
  - destruct (Ascii.eqb_spec d c) as [->|Hd].
    + split; [discriminate|]. intros H. exfalso. apply H. now left.
    + split; [intros _|reflexivity]. intros [H|H]; [contradiction|].
      now apply (proj1 IH eq_refl).
Qed.

Lemma rfind_spec (c : ascii) (s : str) (i : nat) :
  rfind c s = Some i ->
  exists pre e, s = pre ++ c :: e /\ List.length pre = i /\ ~ In c e.
Proof.
  revert i. induction s as [|d s IH]; intros i; simpl; [discriminate|].
  destruct (rfind c s) as [j|] eqn:E.
  - intros H. inversion H; subst.
    destruct (IH j eq_refl) as (pre & e & -> & Hl & He).
    exists (d :: pre), e. simpl. now rewrite Hl.
  - destruct (Ascii.eqb_spec d c) as [->|Hd]; [|discriminate].
    intros H. inversion H; subst. exists [], s. repeat split.
    now apply rfind_None.
Qed.

Lemma rfind_app (c : ascii) (pre e : str) :
  ~ In c e -> rfind c (pre ++ c :: e) = Some (List.length pre).
Proof.
  intros He. induction pre as [|d pre IH]; simpl.
  - rewrite (proj2 (rfind_None c e) He). now rewrite Ascii.eqb_refl.
  - now rewrite IH.
Qed.

Lemma suffix_at_spec (nm : str) (i : nat) :
  suffix_at nm = Some i ->
  exists pre e,
    nm = pre ++ "."%char :: e /\ List.length pre = i
    /\ ~ In "."%char e /\ pre <> [] /\ e <> [].
Proof.
  unfold suffix_at. destruct (rfind "." nm) as [j|] eqn:E; [|discriminate].
  destruct ((0 <? j) && (j <? List.length nm - 1)) eqn:B; [|discriminate].
  intros H. inversion H; subst. apply andb_true_iff in B as [B1 B2].
  apply Nat.ltb_lt in B1, B2.
  destruct (rfind_spec _ _ _ E) as (pre & e & -> & Hl & He).
  exists pre, e. repeat split; try assumption.
  - intros ->. simpl in Hl. lia.
  - intros ->. rewrite length_app in B2. simpl in B2. lia.
Qed.

Lemma suffix_at_app (pre e : str) :
  pre <> [] -> e <> [] -> ~ In "."%char e ->
  suffix_at (pre ++ "."%char :: e) = Some (List.length pre).
Proof.
  intros Hp He Hd. unfold suffix_at. rewrite (rfind_app "." pre e Hd).
  rewrite length_app. simpl List.length.
  replace ((0 <? List.length pre)
           && (List.length pre <? List.length pre + S (List.length e) - 1))
    with true; [reflexivity|].
  symmetry. apply andb_true_iff. split; apply Nat.ltb_lt.
  - destruct pre; [congruence|simpl; lia].
  - destruct e; [congruence|simpl; lia].
Qed.

Lemma firstn_length_app {A} (a b : list A) : firstn (List.length a) (a ++ b) = a.
Proof.
  rewrite firstn_app, Nat.sub_diag, firstn_all. simpl. apply app_nil_r.
Qed.

Lemma skipn_length_app {A} (a b : list A) : skipn (List.length a) (a ++ b) = b.
Proof.
  rewrite skipn_app, Nat.sub_diag, skipn_all. reflexivity.
Qed.

(** X8. Stem and suffix cut the name in two: for every [RoadPath],
    [stem + suffix == name]; and a suffix, when there is one, is a dot
    followed by at least one character and no further dot, after a stem that
    is not empty. *)
Theorem stem_suffix_is_name (self : roadpath.RoadPath) :
  roadpath.RoadPath.stem self ++ roadpath.RoadPath.suffix self
  = roadpath.RoadPath.name self
  /\ (roadpath.RoadPath.suffix self = []
      \/ exists e,
           roadpath.RoadPath.suffix self = "."%char :: e
           /\ e <> [] /\ ~ In "."%char e
           /\ roadpath.RoadPath.stem self <> []).
Proof.
  unfold roadpath.RoadPath.stem, roadpath.RoadPath.suffix,
    roadpath.RoadPath.name, stem, suffix.
  set (nm := name (roadpath._path self)).
  destruct (suffix_at nm) as [i|] eqn:E.
  - destruct (suffix_at_spec _ _ E) as (pre & e & Hnm & Hl & He & Hp & Hne).
    unfold slice, slice_from. simpl skipn. rewrite Nat.sub_0_r.
    rewrite Hnm, <- Hl, firstn_length_app, skipn_length_app.
    split; [reflexivity|]. right. exists e. now repeat split.
  - split; [apply app_nil_r|now left].
Qed.

(** The name [with_suffix] builds is the stem followed by the new suffix. *)
Lemma with_suffix_new_name (nm sfx : str) :
  let old_suffix :=
    match suffix_at nm with Some i => slice_from i nm | None => [] end in
  let st := match suffix_at nm with Some i => slice 0 i nm | None => nm end in
  (if negb (truthy old_suffix) then nm ++ sfx
   else slice 0 (List.length nm - List.length old_suffix) nm ++ sfx)
  = st ++ sfx
  /\ (truthy nm = true -> truthy st = true)
  /\ (forall c, In c st -> In c nm).
Proof.
  cbv zeta. destruct (suffix_at nm) as [i|] eqn:E.
  - destruct (suffix_at_spec _ _ E) as (pre & e & Hnm & Hl & He & Hp & Hne).
    unfold slice, slice_from. simpl skipn. rewrite !Nat.sub_0_r.
    rewrite Hnm, <- Hl, skipn_length_app. simpl truthy. simpl negb. cbv iota.
    rewrite length_app.
    replace (List.length pre + List.length ("."%char :: e)
             - List.length ("."%char :: e)) with (List.length pre) by lia.
    rewrite firstn_length_app. repeat split.
    + intros _. now destruct pre.
    + intros c Hc. apply in_or_app. now left.
  - simpl. now repeat split.
Qed.

Lemma stem_of_app (pre e : str) :
  pre <> [] -> e <> [] -> ~ In "."%char e ->
  let nm := pre ++ "."%char :: e in
  match suffix_at nm with Some i => slice 0 i nm | None => nm end = pre
  /\ match suffix_at nm with Some i => slice_from i nm | None => [] end
     = "."%char :: e.
Proof.
  intros Hp He Hd. cbv zeta. rewrite (suffix_at_app pre e Hp He Hd).
  unfold slice, slice_from. simpl skipn. rewrite Nat.sub_0_r.
  now rewrite firstn_length_app, skipn_length_app.
Qed.

Lemma plain_ext_spec (e : str) :
  is_plain_ext e = true <-> e <> [] /\ ~ In "."%char e /\ ~ In sep e.
Proof.
  unfold is_plain_ext. rewrite !andb_true_iff, !negb_true_iff, !contains_false.
  destruct e; simpl; intuition congruence.
Qed.

(** X9. Replacing the suffix: for an extension [e] without dot and
    separator, [RoadPath(s).with_suffix("." + e)] raises [ValueError] when
    the name of the path is empty, and otherwise returns a path whose suffix
    is ["." + e], whose stem is the stem of [s] and whose parent is the
    parent of [s]. *)
Theorem with_suffix_then_suffix (s e : str) :
  is_plain_ext e = true ->
  let p := roadpath.RoadPath_ s in
  if truthy (roadpath.RoadPath.name p) then
    exists q,
      roadpath.RoadPath.with_suffix p ("."%char :: e) = Ok q
      /\ roadpath.RoadPath.suffix q = "."%char :: e
      /\ roadpath.RoadPath.stem q = roadpath.RoadPath.stem p
      /\ roadpath.RoadPath.parent q = roadpath.RoadPath.parent p
  else roadpath.RoadPath.with_suffix p ("."%char :: e)
       = Raise (Builtin ValueError).
Proof.
  intros (He & Hdot & Hsep)%plain_ext_spec. cbv zeta.
  destruct (of_str_parts s) as (r & tail & E & Hp & Hr & Ht).
  unfold roadpath.RoadPath.with_suffix, roadpath.RoadPath.name,
    roadpath.RoadPath.suffix, roadpath.RoadPath.stem, roadpath.RoadPath.parent.
  change (roadpath._path (roadpath.RoadPath_ s)) with (of_str s).
  rewrite E. unfold with_suffix, suffix, stem, name. simpl _tail.
  simpl drive. simpl root.
  assert (C1 : contains sep ("."%char :: e) = false).
  { apply contains_false. intros [H|H]; [discriminate|contradiction]. }
  assert (C2 : truthy ("."%char :: e)
               && negb (startswith (lit ".") ("."%char :: e))
               || str_eqb ("."%char :: e) (lit ".") = false).
  { destruct e; [congruence|reflexivity]. }
  rewrite C1, C2. cbv iota.
  destruct (truthy (last tail [])) eqn:Hnm; simpl negb; cbv iota;
    [|reflexivity].
  assert (Hne : tail <> []) by (intros ->; discriminate).
  destruct (exists_last Hne) as (init & nm & ->).
  rewrite last_last in *. rewrite removelast_last.
  destruct (with_suffix_new_name nm ("."%char :: e)) as (-> & Hst & Hin).
  set (st := match suffix_at nm with Some i => slice 0 i nm | None => nm end)
    in *.
  specialize (Hst Hnm).
  assert (Hstne : st <> []) by (intros Hs; rewrite Hs in Hst; discriminate).
  rewrite forallb_app in Ht. apply andb_true_iff in Ht as [Hi Hx].
  simpl in Hx. rewrite andb_true_r in Hx.
  apply is_clean_spec in Hx as (_ & _ & Hnmsep).
  assert (Hnew : is_clean (st ++ "."%char :: e) = true).
  { apply is_clean_spec. repeat split.
    - now destruct st.
    - destruct st as [|c [|c' st']]; [congruence| |discriminate].
      destruct e; [congruence|discriminate].
    - intros [H|[H|H]]%in_app_or; [now apply Hnmsep, Hin|discriminate|contradiction]. }
  assert (Hall : forallb is_clean (init ++ [st ++ "."%char :: e]) = true).
  { rewrite forallb_app, Hi. simpl. now rewrite Hnew. }
  exists (roadpath.mkRoadPath
            (mkPath [_format_parsed_parts [] r (init ++ [st ++ "."%char :: e])]
                    [] r (init ++ [st ++ "."%char :: e]) None)).
  split.
  { unfold propagate, pmap, pbind.
    now rewrite (init_from_parsed r _ Hr Hall). }
  simpl roadpath._path. simpl _tail. rewrite last_last.
  destruct (stem_of_app st e Hstne He Hdot) as [-> ->].
  repeat split. unfold parent. simpl _tail. simpl drive. simpl root.
  replace (nonempty (init ++ [st ++ "."%char :: e])) with true
    by now destruct init.
  replace (nonempty (init ++ [nm])) with true by now destruct init.
  simpl negb. cbv iota. now rewrite !removelast_last.
Qed.

Lemma with_suffix_then_suffix_witness :
  exists q,
    roadpath.RoadPath.with_suffix (roadpath.RoadPath_ "/x/y/z.tar.gz")
      ("."%char :: lit "xz") = Ok q
    /\ roadpath.RoadPath.suffix q = "."%char :: lit "xz"
    /\ roadpath.RoadPath.stem q = roadpath.RoadPath.stem (roadpath.RoadPath_ "/x/y/z.tar.gz")
    /\ roadpath.RoadPath.parent q
       = roadpath.RoadPath.parent (roadpath.RoadPath_ "/x/y/z.tar.gz").
Proof.
  apply (with_suffix_then_suffix "/x/y/z.tar.gz" "xz"). reflexivity.
Defined.

(** ** with_name *)

(** X10. Replacing the name: for a name [n] that is a clean component (not
    empty, not [.], no separator), [RoadPath(s).with_name(n)] raises
    [ValueError] when the name of the path is empty, and otherwise returns a
    path whose name is [n] and whose parent is the parent of [s]. *)
Theorem with_name_then_name (s n : str) :
  is_clean n = true ->
  let p := roadpath.RoadPath_ s in
  if truthy (roadpath.RoadPath.name p) then
    exists q,
      roadpath.RoadPath.with_name p n = Ok q
      /\ roadpath.RoadPath.name q = n
      /\ roadpath.RoadPath.parent q = roadpath.RoadPath.parent p
  else roadpath.RoadPath.with_name p n = Raise (Builtin ValueError).
Proof.
  intros Hn. cbv zeta.
  destruct (of_str_parts s) as (r & tail & E & Hp & Hr & Ht).
  unfold roadpath.RoadPath.with_name, roadpath.RoadPath.name,
    roadpath.RoadPath.parent.
  change (roadpath._path (roadpath.RoadPath_ s)) with (of_str s).
  rewrite E. unfold with_name, name. simpl _tail. simpl drive. simpl root.
  destruct (truthy (last tail [])) eqn:Hnm; simpl negb; cbv iota;
    [|reflexivity].
  assert (Hne : tail <> []) by (intros ->; discriminate).
  destruct (exists_last Hne) as (init & nm & ->).
  rewrite removelast_last.
  rewrite (splitroot_relative n (clean_no_lead n Hn)).
  apply is_clean_spec in Hn as Hn'. destruct Hn' as (Hn1 & _ & Hn3).
  replace (truthy n) with true by now destruct n.
  rewrite (proj2 (contains_false sep n) Hn3).
  change (truthy [] || truthy [] || negb true || false) with false. cbv iota.
  rewrite forallb_app in Ht. apply andb_true_iff in Ht as [Hi _].
  assert (Hall : forallb is_clean (init ++ [n]) = true).
  { rewrite forallb_app, Hi. simpl. now rewrite Hn. }
  exists (roadpath.mkRoadPath
            (mkPath [_format_parsed_parts [] r (init ++ [n])]
                    [] r (init ++ [n]) None)).
  split.
  { unfold propagate, pmap, pbind.
    now rewrite (init_from_parsed r _ Hr Hall). }
  simpl roadpath._path. simpl _tail. rewrite last_last. split; [reflexivity|].
  unfold parent. simpl _tail. simpl drive. simpl root.
  replace (nonempty (init ++ [n])) with true by now destruct init.
  replace (nonempty (init ++ [nm])) with true by now destruct init.
  simpl negb. cbv iota. now rewrite !removelast_last.
Qed.

Lemma with_name_then_name_witness :
  exists q,
    roadpath.RoadPath.with_name (roadpath.RoadPath_ "/a/b/c.txt") "d.md" = Ok q
    /\ roadpath.RoadPath.name q = lit "d.md"
    /\ roadpath.RoadPath.parent q
       = roadpath.RoadPath.parent (roadpath.RoadPath_ "/a/b/c.txt").
Proof. apply (with_name_then_name "/a/b/c.txt" "d.md"). reflexivity. Defined.

(** X11. [with_name] refuses a name that is empty, that begins or ends
    with the separator, or that holds a separator and does not come to
    exactly one component (like [x/y]): it raises [ValueError], whatever
    the path. *)
Theorem with_name_rejects (self : roadpath.RoadPath) (n : str) :
  truthy n = false
  \/ startswith "/" n = true
  \/ endswith "/" n = true
  \/ (contains sep n = true /\ List.length (_tail (of_str n)) <> 1) ->
  roadpath.RoadPath.with_name self n = Raise (Builtin ValueError).
Proof.
  intros H0.
  assert (H : truthy n = false \/ contains sep n = true).
  { destruct H0 as [H|[H|[H|[H _]]]]; [now left| | |now right]; right.
    - destruct n as [|c n]; [discriminate|]. simpl in H.
      apply andb_true_iff in H as [H _]. unfold contains, sep. simpl.
      now rewrite H.
    - apply endswith_sep_true in H as (n' & ->). unfold contains.
      rewrite existsb_app. apply orb_true_iff. right.
      unfold existsb. now rewrite Ascii.eqb_refl. }
  clear H0. unfold roadpath.RoadPath.with_name, with_name.
  destruct (truthy (name (roadpath._path self))); simpl negb; cbv iota;
    [|reflexivity].
  destruct (startswith "/" n) eqn:Hl.
  - destruct (splitroot_shape n) as (rt & rel & E & Hrt). rewrite E.
    pose proof (parse_explicit n) as P. unfold _parse_path in P.
    replace (truthy n) with true in P by (destruct n; [discriminate|reflexivity]).
    simpl negb in P. cbv iota in P. rewrite E in P. inversion P as [[Hr Ht]].
    rewrite root_by_lead_truthy, <- lead_startswith, Hl. reflexivity.
  - rewrite (splitroot_relative n Hl). simpl truthy. simpl orb.
    destruct H as [-> | ->]; [reflexivity|].
    now rewrite orb_true_r.
Qed.

Lemma with_name_rejects_witness :
  roadpath.RoadPath.with_name (roadpath.RoadPath_ "/a/b") "x/y"
  = Raise (Builtin ValueError).
Proof.
  apply (with_name_rejects (roadpath.RoadPath_ "/a/b") "x/y").
  right. right. right. split; [reflexivity|vm_compute; discriminate].
Defined.

(** ** normalize *)

Lemma last_is_dotdot_snoc (a : list str) (y : str) :
  posixpath.last_is_dotdot (a ++ [y]) = is_dotdot y.
Proof. unfold posixpath.last_is_dotdot. now rewrite rev_app_distr. Qed.

Lemma no_dotdot_app (a b : list str) :
  no_dotdot (a ++ b) = no_dotdot a && no_dotdot b.
Proof. apply forallb_app. Qed.

Lemma dotdot_first_app_l (a b : list str) :
  dotdot_first (a ++ b) = true -> dotdot_first a = true.
Proof.
  induction a as [|x a IH]; simpl; [reflexivity|].
  destruct (is_dotdot x); [exact IH|].
  rewrite no_dotdot_app. now intros [H _]%andb_true_iff.
Qed.

Lemma dotdot_first_snoc (a : list str) (x : str) :
  dotdot_first a = true -> is_dotdot x = false -> dotdot_first (a ++ [x]) = true.
Proof.
  intros Ha Hx. induction a as [|y a IH]; simpl.
  - now rewrite Hx.
  - simpl in Ha. destruct (is_dotdot y); [now apply IH|].
    rewrite no_dotdot_app, Ha. simpl. now rewrite Hx.
Qed.

Lemma dotdot_first_before (l1 l2 : list str) (x : str) :
  dotdot_first (l1 ++ x :: l2) = true -> is_dotdot x = true ->
  forallb is_dotdot l1 = true.
Proof.
  intros H Hx. induction l1 as [|y l1 IH]; simpl; [reflexivity|].
  simpl in H. destruct (is_dotdot y); [now apply IH|].
  rewrite no_dotdot_app in H. apply andb_true_iff in H as [_ H].
  simpl in H. now rewrite Hx in H.
Qed.

Lemma all_dotdot_first (l : list str) :
  forallb is_dotdot l = true -> dotdot_first l = true.
Proof.
  induction l as [|y l IH]; simpl; [reflexivity|].
  intros [Hy Hl]%andb_true_iff. rewrite Hy. now apply IH.
Qed.

Lemma no_dotdot_middle (l1 l2 : list str) (x : str) :
  no_dotdot (l1 ++ x :: l2) = true -> is_dotdot x = false.
Proof.
  rewrite no_dotdot_app. intros [_ H]%andb_true_iff. simpl in H.
  apply andb_true_iff in H as [H _]. now apply negb_true_iff.
Qed.

Lemma forallb_removelast {A} (f : A -> bool) (l : list A) :
  forallb f l = true -> forallb f (removelast l) = true.
Proof.
  destruct l as [|x l] using rev_ind; [reflexivity|].
  rewrite removelast_last, forallb_app. now intros [H _]%andb_true_iff.
Qed.

(** One round of [normpath] on a kept component: what it can do. *)
Lemma normpath_step_cases (r : str) (acc : list str) (x : str) :
  kept x = true ->
  (posixpath.normpath_step r acc x = acc ++ [x]
   /\ (is_dotdot x = false
       \/ (truthy r = false /\ acc = [])
       \/ exists a y, acc = a ++ [y] /\ is_dotdot y = true))
  \/ (is_dotdot x = true /\ posixpath.normpath_step r acc x = removelast acc).
Proof.
  intros Hk. unfold posixpath.normpath_step.
  assert (Hfirst : str_eqb x (lit "") || str_eqb x dot = false).
  { unfold kept in Hk. apply andb_true_iff in Hk as [H1 H2].
    apply negb_true_iff in H2. rewrite H2.
    destruct x; [discriminate|reflexivity]. }
  rewrite Hfirst. fold (is_dotdot x).
  destruct (is_dotdot x) eqn:Hx; simpl negb; simpl orb.
  2:{ left. split; [reflexivity|now left]. }
  destruct acc as [|y acc] using rev_ind.
  - simpl. destruct (truthy r) eqn:Hr; simpl.
    + now right.
    + left. split; [reflexivity|]. right. now left.
  - replace (nonempty (acc ++ [y])) with true by now destruct acc.
    rewrite last_is_dotdot_snoc, andb_false_r. simpl.
    destruct (is_dotdot y) eqn:Hy.
    + left. split; [reflexivity|]. right. right. now exists acc, y.
    + now right.
Qed.

Lemma normpath_step_invariant (r : str) (acc : list str) (x : str) :
  is_clean x = true ->
  forallb is_clean acc = true -> collapsed r acc = true ->
  forallb is_clean (posixpath.normpath_step r acc x) = true
  /\ collapsed r (posixpath.normpath_step r acc x) = true.
Proof.
  intros Hx Hc Hs.
  destruct (normpath_step_cases r acc x (kept_of_clean x Hx))
    as [[-> H]|[_ ->]].
  - split; [rewrite forallb_app, Hc; simpl; now rewrite Hx|].
    unfold collapsed in *. destruct H as [H|[[Hr ->]|(a & y & -> & Hy)]].
    + destruct (truthy r).
      * rewrite no_dotdot_app, Hs. simpl. now rewrite H.
      * now apply dotdot_first_snoc.
    + rewrite Hr. simpl. now destruct (is_dotdot x).
    + destruct (truthy r).
      * apply no_dotdot_middle in Hs. congruence.
      * destruct (is_dotdot x) eqn:Hdd; [|now apply dotdot_first_snoc].
        apply all_dotdot_first. rewrite forallb_app. simpl. rewrite Hdd.
        rewrite forallb_app, (dotdot_first_before a [] y Hs Hy). simpl.
        now rewrite Hy.
  - split; [now apply forallb_removelast|].
    unfold collapsed in *.
    destruct acc as [|y acc] using rev_ind; [assumption|].
    rewrite removelast_last. destruct (truthy r).
    + rewrite no_dotdot_app in Hs. now apply andb_true_iff in Hs as [Hs _].
    + now apply dotdot_first_app_l in Hs.
Qed.

Lemma fold_normpath_invariant (r : str) (comps acc : list str) :
  forallb is_clean comps = true ->
  forallb is_clean acc = true -> collapsed r acc = true ->
  forallb is_clean (fold_left (posixpath.normpath_step r) comps acc) = true
  /\ collapsed r (fold_left (posixpath.normpath_step r) comps acc) = true.
Proof.
  revert acc. induction comps as [|x comps IH]; intros acc Hc Ha Hs;
    [now split|].
  simpl in Hc. apply andb_true_iff in Hc as [Hx Hc]. simpl.
  destruct (normpath_step_invariant r acc x Hx Ha Hs) as [Ha' Hs'].
  now apply IH.
Qed.

(** On collapsed components [normpath] has nothing left to do. *)
Lemma fold_normpath_collapsed (r : str) (l2 l1 : list str) :
  forallb is_clean (l1 ++ l2) = true -> collapsed r (l1 ++ l2) = true ->
  fold_left (posixpath.normpath_step r) l2 l1 = l1 ++ l2.
Proof.
  revert l1. induction l2 as [|x l2 IH]; intros l1 Hc Hs;
    [now rewrite app_nil_r|].
  simpl.
  assert (Hx : is_clean x = true).
  { rewrite forallb_app in Hc. apply andb_true_iff in Hc as [_ Hc].
    simpl in Hc. now apply andb_true_iff in Hc as [Hc _]. }
  replace (l1 ++ x :: l2) with ((l1 ++ [x]) ++ l2) in *
    by (now rewrite <- app_assoc).
  destruct (normpath_step_cases r l1 x (kept_of_clean x Hx))
    as [[-> _]|[Hdd E]]; [now apply IH|].
  exfalso. unfold collapsed in Hs. rewrite <- app_assoc in Hs. simpl in Hs.
  destruct (truthy r) eqn:Hr.
  - apply no_dotdot_middle in Hs. congruence.
  - pose proof (dotdot_first_before l1 l2 x Hs Hdd) as Hall.
    unfold posixpath.normpath_step in E.
    assert (Hfirst : str_eqb x (lit "") || str_eqb x dot = false).
    { pose proof (kept_of_clean x Hx) as Hk. unfold kept in Hk.
      apply andb_true_iff in Hk as [H1 H2]. apply negb_true_iff in H2.
      rewrite H2. destruct x; [discriminate|reflexivity]. }
    rewrite Hfirst, Hr in E. fold (is_dotdot x) in E. rewrite Hdd in E.
    simpl negb in E. simpl orb in E.
    destruct l1 as [|y l1] using rev_ind.
    + simpl in E. discriminate.
    + rewrite forallb_app in Hall. apply andb_true_iff in Hall as [_ Hy].
      simpl in Hy. rewrite andb_true_r in Hy.
      replace (nonempty (l1 ++ [y])) with true in E by now destruct l1.
      rewrite last_is_dotdot_snoc, Hy in E. simpl in E.
      rewrite removelast_last in E.
      apply (f_equal (@List.length str)) in E.
      rewrite !length_app in E. simpl in E. lia.
Qed.

Lemma normal_components_spec (s : str) :
  exists r tail,
    _parse_path s = ([], r, tail) /\ is_root r = true
    /\ normal_components s = fold_left (posixpath.normpath_step r) tail []
    /\ forallb is_clean (normal_components s) = true
    /\ collapsed r (normal_components s) = true
    /\ posixpath.normpath s = render r (normal_components s).
Proof.
  destruct (parse_clean s) as (r & tail & Hp & Hr & Ht).
  exists r, tail. unfold normal_components. rewrite Hp.
  assert (Hc0 : collapsed r [] = true) by (unfold collapsed; now destruct (truthy r)).
  destruct (fold_normpath_invariant r tail [] Ht eq_refl Hc0) as [Hc Hs].
  repeat split; try assumption.
  rewrite (normpath_parse s r tail Hp). unfold normalized, render.
  now rewrite (format_app r _ Hr).
Qed.

(** X12. [normalize] is idempotent: normalizing a normalized path changes
    nothing. *)
Theorem normalize_idempotent (s : str) :
  roadpath.normalize (roadpath.normalize s) = roadpath.normalize s.
Proof.
  unfold roadpath.normalize.
  destruct (normal_components_spec s) as (r & tail & Hp & Hr & _ & Hc & Hs & ->).
  rewrite (normpath_parse _ r _ (parse_render r _ Hr Hc)).
  unfold normalized, render.
  rewrite (fold_normpath_collapsed r _ [] Hc Hs). simpl app.
  now rewrite (format_app r _ Hr).
Qed.

(** X13. The method and the free function agree, and a normalized string
    is printed as it is: [str(RoadPath(s).normalize())] equals
    [normalize(s)], and so does [str(RoadPath(normalize(s)))]. *)
Theorem str_normalize_is_normalize (s : str) :
  roadpath.RoadPath.__str__ (roadpath.RoadPath.normalize (roadpath.RoadPath_ s))
  = roadpath.normalize s
  /\ roadpath.RoadPath.__str__ (roadpath.RoadPath_ (roadpath.normalize s))
     = roadpath.normalize s.
Proof.
  assert (H : to_str (of_str (posixpath.normpath s)) = posixpath.normpath s).
  { destruct (normal_components_spec s) as (r & tail & _ & Hr & _ & Hc & _ & ->).
    apply to_str_parse. now apply parse_render. }
  split; [|exact H].
  unfold roadpath.RoadPath.normalize.
  change (roadpath._path (roadpath.RoadPath_ s)) with (of_str s).
  rewrite normpath_to_str. exact H.
Qed.

(** X14. What [normalize] leaves: the root of [s] is kept, and the
    components are those of [s] with every [..] cancelled against the
    component before it; under a root no [..] remains, without a root
    the [..] that remain all come first. *)
Theorem normalize_collapses_dotdot (s : str) :
  let q := roadpath._path (roadpath.RoadPath_ (roadpath.normalize s)) in
  root q = root (roadpath._path (roadpath.RoadPath_ s))
  /\ _tail q = normal_components s
  /\ (if roadpath.RoadPath.is_absolute (roadpath.RoadPath_ s)
      then no_dotdot (_tail q) = true
      else dotdot_first (_tail q) = true).
Proof.
  cbv zeta. change (roadpath._path (roadpath.RoadPath_ s)) with (of_str s).
  change (roadpath._path (roadpath.RoadPath_ (roadpath.normalize s)))
    with (of_str (posixpath.normpath s)).
  change (roadpath.RoadPath.is_absolute (roadpath.RoadPath_ s))
    with (truthy (root (of_str s))).
  destruct (normal_components_spec s) as (r & tail & Hp & Hr & _ & Hc & Hs & ->).
  pose proof (parse_render r _ Hr Hc) as Hq.
  unfold of_str, of_segments. simpl joined_raw. rewrite Hq, Hp. simpl.
  repeat split. unfold collapsed in Hs. now destruct (truthy r).
Qed.

Lemma no_dotdot_first (l : list str) : no_dotdot l = true -> dotdot_first l = true.
Proof.
  induction l as [|x l IH]; simpl; [reflexivity|].
  intros [Hx Hl]%andb_true_iff. apply negb_true_iff in Hx. now rewrite Hx.
Qed.

(** X15. Without [..] components, normalizing is printing:
    [normalize(s)] equals [str(RoadPath(s))] whenever no part of
    [RoadPath(s)] is [..]. *)
Theorem normalize_without_dotdot (s : str) :
  no_dotdot (roadpath.RoadPath.parts (roadpath.RoadPath_ s)) = true ->
  roadpath.normalize s = roadpath.RoadPath.__str__ (roadpath.RoadPath_ s).
Proof.
  change (roadpath.RoadPath.parts (roadpath.RoadPath_ s)) with (parts (of_str s)).
  change (roadpath.RoadPath.__str__ (roadpath.RoadPath_ s))
    with (to_str (of_str s)).
  destruct (parse_clean s) as (r & tail & Hp & Hr & Ht).
  rewrite (parts_of_str _ _ _ Hp), (to_str_parse _ _ _ Hp).
  intros H.
  assert (Hn : no_dotdot tail = true).
  { destruct (truthy r); [|assumption]. simpl in H.
    now apply andb_true_iff in H as [_ H]. }
  unfold roadpath.normalize. rewrite (normpath_parse s r tail Hp).
  unfold normalized, render.
  rewrite (fold_normpath_collapsed r tail [] Ht).
  - simpl app. now rewrite (format_app r _ Hr).
  - unfold collapsed. simpl app. destruct (truthy r);
      [assumption|now apply no_dotdot_first].
Qed.

Lemma normalize_without_dotdot_witness :
  roadpath.normalize "/a//b/./c/"
  = roadpath.RoadPath.__str__ (roadpath.RoadPath_ "/a//b/./c/").
Proof. apply (normalize_without_dotdot "/a//b/./c/"). reflexivity. Defined.

(** ** is_absolute and absolute *)

Lemma is_absolute_of_str (s : str) :
  is_absolute (of_str s) = startswith "/" s.
Proof.
  unfold is_absolute, of_str, of_segments. simpl joined_raw.
  rewrite parse_explicit. simpl root.
  now rewrite root_by_lead_truthy, lead_startswith.
Qed.

(** X16. A path is absolute exactly when its string starts with the
    separator: [RoadPath(s).is_absolute()] is [s.startswith("/")]. *)
Theorem is_absolute_iff_leading_separator (s : str) :
  roadpath.RoadPath.is_absolute (roadpath.RoadPath_ s) = startswith "/" s.
Proof. apply is_absolute_of_str. Qed.

Lemma tail_explicit (s : str) : _tail (of_str s) = filter kept (split sep s).
Proof. apply (tail_of_str s _ _ (parse_explicit s)). Qed.

Lemma root_explicit (s : str) : root (of_str s) = root_by_lead (lead s).
Proof.
  unfold of_str, of_segments. simpl joined_raw. now rewrite parse_explicit.
Qed.

(** X17. [absolute()] puts the working directory in front: when
    [os.getcwd()] returns [cwd], [RoadPath(s).absolute()] is equal to
    [RoadPath(cwd) / s] (which is [RoadPath(s)] for an absolute [s]); when
    [os.getcwd()] raises, an absolute path is still returned as it is and a
    relative one raises the same error. *)
Theorem absolute_is_cwd_truediv (w : roadpath.world) (s : str) :
  match os.getcwd (roadpath.proc w) with
  | POk cwd =>
      exists q,
        roadpath.RoadPath.absolute w (roadpath.RoadPath_ s) = Ok q
        /\ RoadPath_eq q
             (roadpath.RoadPath.__truediv__ (roadpath.RoadPath_ cwd) (SegStr s))
           = true
  | PRaise e =>
      if startswith "/" s
      then roadpath.RoadPath.absolute w (roadpath.RoadPath_ s)
           = Ok (roadpath.RoadPath_ s)
      else roadpath.RoadPath.absolute w (roadpath.RoadPath_ s)
           = Raise (Builtin e)
  end.
Proof.
  unfold roadpath.RoadPath.absolute, absolute.
  change (roadpath._path (roadpath.RoadPath_ s)) with (of_str s).
  rewrite is_absolute_of_str.
  assert (Hself : roadpath.RoadPath.__init__ (roadpath.APath (of_str s))
                  = roadpath.RoadPath_ s).
  { unfold roadpath.RoadPath.__init__. now rewrite with_segments_of_str. }
  destruct (os.getcwd (roadpath.proc w)) as [cwd|e];
    destruct (startswith "/" s) eqn:Hs.
  - exists (roadpath.RoadPath_ s). split.
    + unfold propagate, pmap, pbind. now rewrite Hself.
    + apply RoadPath_eq_to_str. rewrite truediv_of_segments.
      change (to_str (of_str s) = to_str (of_segments [cwd; s])).
      rewrite to_str_of_segments.
      change (joined_raw [cwd; s]) with (posixpath.join_step cwd s).
      now rewrite (join_step_absolute cwd s Hs).
  - simpl pbind.
    destruct (negb (truthy (root (of_str s))) && negb (nonempty (_tail (of_str s))))
      eqn:Hempty.
    + eexists. split; [reflexivity|].
      apply RoadPath_eq_to_str. rewrite truediv_of_segments.
      unfold roadpath.RoadPath.__init__, with_segments. simpl flat_map.
      rewrite raw_of_segments.
      change (to_str (of_segments [cwd]) = to_str (of_segments [cwd; s])).
      rewrite !to_str_of_segments. apply of_str_parse_eq.
      change (joined_raw [cwd; s]) with (posixpath.join_step cwd s).
      rewrite (parse_join_step_relative cwd s Hs).
      apply andb_true_iff in Hempty as [_ Ht]. rewrite tail_explicit in Ht.
      destruct (filter kept (split sep s)); [|discriminate].
      rewrite app_nil_r. apply parse_explicit.
    + eexists. split; [reflexivity|].
      apply RoadPath_eq_to_str. rewrite truediv_of_segments.
      unfold roadpath.RoadPath.__init__, with_segments. simpl flat_map.
      unfold of_str. now rewrite !raw_of_segments, !app_nil_r.
  - unfold propagate, pmap, pbind. now rewrite Hself.
  - reflexivity.
Qed.

(** ** home *)

Lemma lstrip_suffix (c : ascii) (s : str) : exists t, s = t ++ lstrip c s.
Proof.
  induction s as [|d s IH]; [now exists []|]. simpl.
  destruct (Ascii.eqb d c).
  - destruct IH as (t & E). exists (d :: t). simpl. now rewrite <- E.
  - now exists [].
Qed.

Lemma rstrip_prefix (c : ascii) (s : str) : exists t, s = rstrip c s ++ t.
Proof.
  unfold rstrip. destruct (lstrip_suffix c (rev s)) as (t & E).
  exists (rev t). rewrite <- rev_app_distr, <- E. now rewrite rev_involutive.
Qed.

Lemma expanduser_tilde (w : os.process) :
  posixpath.expanduser w "~"
  = match os.lookup "HOME" (os.environ w) with
    | Some h => or_else (rstrip sep h) "/"
    | None =>
        match os.getpwuid_dir w with
        | Some h => or_else (rstrip sep h) "/"
        | None => lit "~"
        end
    end.
Proof.
  unfold posixpath.expanduser.
  change (startswith (lit "~") (lit "~")) with true.
  change (find_from sep 1 (lit "~")) with (@None nat).
  simpl negb. cbv beta iota zeta.
  change (List.length (lit "~")) with 1.
  change (1 =? 1) with true. cbv iota.
  change (slice_from 1 (lit "~")) with (@nil ascii).
  destruct (os.lookup (lit "HOME") (os.environ w)) as [h|];
    [now rewrite app_nil_r|].
  destruct (os.getpwuid_dir w) as [h|]; [now rewrite app_nil_r|reflexivity].
Qed.

(** X18. [home()] when the home directory cannot be determined: without
    [HOME] in the environment and without a password entry for the user,
    [RoadPath.home()] raises [RuntimeError]. *)
Theorem home_undetermined (w : roadpath.world) :
  os.lookup "HOME" (os.environ (roadpath.proc w)) = None ->
  os.getpwuid_dir (roadpath.proc w) = None ->
  roadpath.RoadPath.home w = Raise (Builtin RuntimeError).
Proof.
  intros H1 H2. unfold roadpath.RoadPath.home, home, expanduser.
  change (_tail (of_str (lit "~"))) with [lit "~"].
  change (drive (of_str (lit "~"))) with (@nil ascii).
  change (root (of_str (lit "~"))) with (@nil ascii).
  simpl hd. rewrite expanduser_tilde, H1, H2. reflexivity.
Qed.

Lemma home_undetermined_witness :
  roadpath.RoadPath.home bare_world = Raise (Builtin RuntimeError).
Proof. apply (home_undetermined bare_world); reflexivity. Defined.

(** X19. [home()] from the environment: when [HOME] is set to [h], not
    starting with a tilde, [RoadPath.home()] is equal to [RoadPath] of [h]
    without its trailing separators, or of [/] when nothing is left. *)
Theorem home_is_HOME (w : roadpath.world) (h : str) :
  os.lookup "HOME" (os.environ (roadpath.proc w)) = Some h ->
  startswith "~" h = false ->
  exists q,
    roadpath.RoadPath.home w = Ok q
    /\ RoadPath_eq q (roadpath.RoadPath_ (or_else (rstrip sep h) "/")) = true.
Proof.
  intros H1 H2. unfold roadpath.RoadPath.home, home, expanduser.
  change (_tail (of_str (lit "~"))) with [lit "~"].
  change (drive (of_str (lit "~"))) with (@nil ascii).
  change (root (of_str (lit "~"))) with (@nil ascii).
  simpl hd. rewrite expanduser_tilde, H1.
  set (homedir := or_else (rstrip sep h) (lit "/")).
  change (truthy [] || truthy []) with false.
  change (str_eqb (slice 0 1 (lit "~")) (lit "~")) with true.
  simpl negb. simpl nonempty. simpl andb. cbv iota.
  assert (Hhd : str_eqb (slice 0 1 homedir) (lit "~") = false).
  { unfold homedir, or_else. destruct (rstrip_prefix sep h) as (t & E).
    destruct (rstrip sep h) as [|c r]; [reflexivity|].
    rewrite E in H2. simpl in H2. simpl. now rewrite Ascii.eqb_sym. }
  rewrite Hhd.
  destruct (parse_clean homedir) as (r & tl & Hp & Hr & Ht).
  rewrite Hp. simpl List.tl. rewrite app_nil_r.
  exists (roadpath.mkRoadPath (mkPath [_format_parsed_parts [] r tl] [] r tl None)).
  split.
  - unfold propagate, pmap, pbind. now rewrite (init_from_parsed r tl Hr Ht).
  - apply RoadPath_eq_to_str.
    change (render r tl = to_str (of_str homedir)).
    now rewrite (to_str_parse _ _ _ Hp).
Qed.

Lemma home_is_HOME_witness :
  exists q,
    roadpath.RoadPath.home example_world = Ok q
    /\ RoadPath_eq q (roadpath.RoadPath_ (or_else (rstrip sep (lit "/home/road")) "/"))
       = true.
Proof. apply (home_is_HOME example_world "/home/road"); reflexivity. Defined.

(** ** Printing and splitting, back again *)

(** X20. Printing loses nothing that equality sees: [RoadPath(s)] is equal
    to the string [s] it was built from and to its own [str]; and building
    from the printed form prints the same. *)
Theorem str_then_RoadPath (s : str) :
  roadpath.RoadPath.__eq__ (roadpath.RoadPath_ s) (roadpath.OStr s) = true
  /\ roadpath.RoadPath.__eq__ (roadpath.RoadPath_ s)
       (roadpath.OStr (roadpath.RoadPath.__str__ (roadpath.RoadPath_ s))) = true
  /\ roadpath.RoadPath.__str__
       (roadpath.RoadPath_ (roadpath.RoadPath.__str__ (roadpath.RoadPath_ s)))
     = roadpath.RoadPath.__str__ (roadpath.RoadPath_ s).
Proof.
  split; [apply str_eqb_refl|]. split; [|apply to_str_idem].
  apply str_eqb_eq. symmetry. apply to_str_idem.
Qed.

(** X21. [split] and [join] are inverse up to printing: joining the two
    halves [split(p)] returns gives [str(RoadPath(p))], with no
    normalization needed. *)
Theorem join_split (p : str) :
  let '(head, tail) := roadpath.split p in
  roadpath.join [head; tail] = roadpath.RoadPath.__str__ (roadpath.RoadPath_ p).
Proof. apply join_dirname_basename. Qed.

(** ** expandvars *)

Lemma expandvars_loop_undefined (env : list (str * str)) :
  (forall n, os.lookup n env = None) ->
  forall fuel path i, posixpath.expandvars_loop fuel env path i = path.
Proof.
  intros H. induction fuel as [|fuel IH]; intros path i; [reflexivity|].
  simpl. destruct (posixpath.search path i) as [[[a b] g]|]; [|reflexivity].
  rewrite H. apply IH.
Qed.

(** X22. Undefined variables stay: when no variable is defined in the
    environment, [expandvars(p)] is [p], references and all. *)
Theorem expandvars_undefined (w : roadpath.world) (p : str) :
  (forall n, os.lookup n (os.environ (roadpath.proc w)) = None) ->
  roadpath.expandvars w p = p.
Proof.
  intros H. unfold roadpath.expandvars, posixpath.expandvars.
  destruct (contains "$" p); [|reflexivity].
  now apply expandvars_loop_undefined.
Qed.

Lemma expandvars_undefined_witness :
  roadpath.expandvars bare_world "$HOME/${x}/$" = lit "$HOME/${x}/$".
Proof. apply (expandvars_undefined bare_world). intros n. reflexivity. Defined.

Lemma take_word_all (n : str) :
  forallb posixpath.is_word n = true -> posixpath.take_word n = n.
Proof.
  induction n as [|c n IH]; simpl; [reflexivity|].
  intros [Hc Hn]%andb_true_iff. rewrite Hc. now rewrite IH.
Qed.

Lemma search_at_end (path : str) :
  posixpath.search path (List.length path) = None.
Proof. unfold posixpath.search. now rewrite skipn_all. Qed.

Lemma word_not_brace (n : str) :
  truthy n = true -> forallb posixpath.is_word n = true ->
  startswith "{" n = false.
Proof.
  destruct n as [|c n]; [discriminate|]. intros _ [Hc _]%andb_true_iff.
  simpl. rewrite andb_true_r. apply Ascii.eqb_neq. intros <-. discriminate.
Qed.

(** X23. A value is put in as it is: when the variable [n] (word
    characters only) is defined as [v], [expandvars("$" + n)] is exactly
    [v]; dollar signs inside [v] are not expanded again. *)
Theorem expandvars_value_verbatim (w : roadpath.world) (n v : str) :
  truthy n = true -> forallb posixpath.is_word n = true ->
  os.lookup n (os.environ (roadpath.proc w)) = Some v ->
  roadpath.expandvars w ("$"%char :: n) = v.
Proof.
  intros Hn Hw Hv. unfold roadpath.expandvars, posixpath.expandvars.
  change (contains "$" ("$"%char :: n)) with true. simpl negb. cbv iota.
  simpl List.length. unfold posixpath.expandvars_loop at 1.
  fold posixpath.expandvars_loop.
  unfold posixpath.search at 1. simpl skipn.
  unfold posixpath.search_here at 1, posixpath.match_here at 1.
  rewrite Ascii.eqb_refl, (take_word_all n Hw), Hn.
  rewrite (word_not_brace n Hn Hw). simpl andb. cbv iota. rewrite Hv.
  unfold slice_from, slice. simpl skipn. simpl firstn.
  rewrite skipn_all. simpl app. rewrite app_nil_r.
  destruct n as [|c n]; [discriminate|]. simpl List.length.
  unfold posixpath.expandvars_loop. now rewrite search_at_end.
Qed.

Lemma expandvars_value_verbatim_witness :
  roadpath.expandvars example_world ("$"%char :: lit "T") = lit "~".
Proof.
  apply (expandvars_value_verbatim example_world "T" "~"); reflexivity.
Defined.

(** ** commonprefix and commonpath *)

Section Orders.

Context {A : Type} (leb : A -> A -> bool) (eqb : A -> A -> bool).
Hypothesis leb_total : forall x y, leb x y = true \/ leb y x = true.
Hypothesis leb_antisym : forall x y, leb x y = true -> leb y x = true -> x = y.
Hypothesis leb_trans :
  forall x y z, leb x y = true -> leb y z = true -> leb x z = true.
Hypothesis eqb_eq : forall x y, eqb x y = true <-> x = y.

Lemma leb_refl_of_total (x : A) : leb x x = true.
Proof. now destruct (leb_total x x). Qed.

Lemma lex_leb_total (a b : list A) :
  posixpath.lex_leb leb a b = true \/ posixpath.lex_leb leb b a = true.
Proof.
  revert b. induction a as [|x a IH]; intros [|y b]; simpl; auto.
  destruct (leb x y) eqn:E1, (leb y x) eqn:E2; auto.
  destruct (leb_total x y); congruence.
Qed.

Lemma lex_leb_antisym (a b : list A) :
  posixpath.lex_leb leb a b = true -> posixpath.lex_leb leb b a = true -> a = b.
Proof.
  revert b. induction a as [|x a IH]; intros [|y b]; simpl;
    try discriminate; auto.
  destruct (leb x y) eqn:E1, (leb y x) eqn:E2; try discriminate.
  intros H1 H2. rewrite (leb_antisym x y E1 E2). f_equal. now apply IH.
Qed.

Lemma lex_leb_trans (a b c : list A) :
  posixpath.lex_leb leb a b = true -> posixpath.lex_leb leb b c = true ->
  posixpath.lex_leb leb a c = true.
Proof.
  revert b c. induction a as [|x a IH]; intros [|y b] [|z c]; simpl;
    try discriminate; auto.
  destruct (leb x y) eqn:Exy; [|discriminate].
  destruct (leb y z) eqn:Eyz; [|intros _; discriminate].
  rewrite (leb_trans x y z Exy Eyz).
  destruct (leb z x) eqn:Ezx; [|reflexivity].
  rewrite (leb_trans y z x Eyz Ezx), (leb_trans z x y Ezx Exy).
  apply IH.
Qed.

Lemma prefix_between (p a m b : list A) :
  posixpath.lex_leb leb a m = true -> posixpath.lex_leb leb m b = true ->
  prefix_by eqb p a = true -> prefix_by eqb p b = true ->
  prefix_by eqb p m = true.
Proof.
  revert a m b. induction p as [|c p IH]; intros a m b; [reflexivity|].
  destruct a as [|x a]; [discriminate|]. destruct b as [|z b];
    [intros _ _ _; discriminate|].
  destruct m as [|y m]; [discriminate|]. simpl.
  destruct (leb x y) eqn:Exy; [|discriminate].
  destruct (leb y z) eqn:Eyz; [|intros _; discriminate].
  intros H1 H2 [Hx Ha]%andb_true_iff [Hz Hb]%andb_true_iff.
  apply eqb_eq in Hx, Hz. subst x z.
  pose proof (leb_antisym c y Exy Eyz) as ->.
  rewrite Exy in H1, H2. rewrite (proj2 (eqb_eq y y) eq_refl). simpl.
  now apply (IH a m b).
Qed.

Lemma common_head_prefix (s1 s2 : list A) :
  prefix_by eqb (posixpath.common_head eqb s1 s2) s1 = true
  /\ prefix_by eqb (posixpath.common_head eqb s1 s2) s2 = true.
Proof.
  revert s2. induction s1 as [|c s1 IH]; intros [|d s2]; simpl; auto.
  destruct (eqb c d) eqn:E; simpl; [|auto].
  rewrite E, (proj2 (eqb_eq c c) eq_refl). simpl. apply IH.
Qed.

Lemma common_head_greatest (q s1 s2 : list A) :
  prefix_by eqb q s1 = true -> prefix_by eqb q s2 = true ->
  prefix_by eqb q (posixpath.common_head eqb s1 s2) = true.
Proof.
  revert s1 s2. induction q as [|c q IH]; intros [|x s1] [|y s2]; simpl;
    try discriminate; auto.
  intros [Hx H1]%andb_true_iff [Hy H2]%andb_true_iff.
  apply eqb_eq in Hx, Hy. subst x y.
  rewrite (proj2 (eqb_eq c c) eq_refl). simpl.
  rewrite (proj2 (eqb_eq c c) eq_refl). simpl. now apply IH.
Qed.

Lemma py_min_spec (l : list A) (x : A) :
  In (posixpath.py_min leb x l) (x :: l)
  /\ forall y, In y (x :: l) -> leb (posixpath.py_min leb x l) y = true.
Proof.
  revert x. induction l as [|z l IH]; intros x.
  - split; [now left|]. intros y [<-|[]]. apply leb_refl_of_total.
  - unfold posixpath.py_min. simpl fold_left.
    fold (posixpath.py_min leb (if leb x z then x else z) l).
    destruct (IH (if leb x z then x else z)) as [Hin Hle]. split.
    + destruct Hin as [H|H]; [|right; now right].
      rewrite <- H. destruct (leb x z); [now left|right; now left].
    + intros y Hy.
      assert (Hm : leb (posixpath.py_min leb (if leb x z then x else z) l)
                       (if leb x z then x else z) = true)
        by (apply Hle; now left).
      destruct Hy as [<-|[<-|Hy]]; [| |apply Hle; now right].
      * destruct (leb x z) eqn:E; [assumption|].
        apply (leb_trans _ z _ Hm). destruct (leb_total x z); congruence.
      * destruct (leb x z) eqn:E; [|assumption].
        now apply (leb_trans _ x _ Hm).
Qed.

Lemma py_max_spec (l : list A) (x : A) :
  In (posixpath.py_max leb x l) (x :: l)
  /\ forall y, In y (x :: l) -> leb y (posixpath.py_max leb x l) = true.
Proof.
  revert x. induction l as [|z l IH]; intros x.
  - split; [now left|]. intros y [<-|[]]. apply leb_refl_of_total.
  - unfold posixpath.py_max. simpl fold_left.
    fold (posixpath.py_max leb (if leb z x then x else z) l).
    destruct (IH (if leb z x then x else z)) as [Hin Hle]. split.
    + destruct Hin as [H|H]; [|right; now right].
      rewrite <- H. destruct (leb z x); [now left|right; now left].
    + intros y Hy.
      assert (Hm : leb (if leb z x then x else z)
                       (posixpath.py_max leb (if leb z x then x else z) l) = true)
        by (apply Hle; now left).
      destruct Hy as [<-|[<-|Hy]]; [| |apply Hle; now right].
      * destruct (leb z x) eqn:E; [assumption|].
        apply (leb_trans _ z _); [|assumption].
        destruct (leb_total x z); congruence.
      * destruct (leb z x) eqn:E; [|assumption].
        now apply (leb_trans _ x _).
Qed.

End Orders.

Lemma char_leb_total (x y : ascii) :
  posixpath.char_leb x y = true \/ posixpath.char_leb y x = true.
Proof. unfold posixpath.char_leb. rewrite !Nat.leb_le. lia. Qed.

Lemma char_leb_antisym (x y : ascii) :
  posixpath.char_leb x y = true -> posixpath.char_leb y x = true -> x = y.
Proof.
  unfold posixpath.char_leb. rewrite !Nat.leb_le. intros H1 H2.
  rewrite <- (ascii_nat_embedding x), <- (ascii_nat_embedding y).
  f_equal. lia.
Qed.

Lemma char_leb_trans (x y z : ascii) :
  posixpath.char_leb x y = true -> posixpath.char_leb y z = true ->
  posixpath.char_leb x z = true.
Proof. unfold posixpath.char_leb. rewrite !Nat.leb_le. lia. Qed.

Lemma is_char_prefix_by (a b : str) :
  is_char_prefix a b = prefix_by Ascii.eqb a b.
Proof.
  revert b. induction a as [|c a IH]; intros [|d b]; simpl; auto.
  now rewrite IH.
Qed.

Lemma is_prefix_by (a b : list str) : is_prefix a b = prefix_by str_eqb a b.
Proof.
  revert b. induction a as [|c a IH]; intros [|d b]; simpl; auto.
  now rewrite IH.
Qed.

(** X24. [commonprefix] is the longest common character prefix: it is a
    prefix of every path of the list, and every string that is a prefix of
    all of them is a prefix of it.  It stops inside components: it is
    character-wise, not path-wise. *)
Theorem commonprefix_is_longest_prefix (m : list str) :
  (forall p, In p m -> is_char_prefix (roadpath.commonprefix m) p = true)
  /\ (forall q, m <> [] -> (forall p, In p m -> is_char_prefix q p = true) ->
                is_char_prefix q (roadpath.commonprefix m) = true).
Proof.
  unfold roadpath.commonprefix, posixpath.commonprefix.
  destruct m as [|x l]; [split; [intros p []|congruence]|].
  set (lexc := posixpath.lex_leb posixpath.char_leb).
  assert (Htot : forall a b, lexc a b = true \/ lexc b a = true)
    by (apply lex_leb_total; apply char_leb_total).
  assert (Htr : forall a b c, lexc a b = true -> lexc b c = true -> lexc a c = true)
    by (apply lex_leb_trans;
        first [exact char_leb_total|exact char_leb_antisym|exact char_leb_trans]).
  destruct (py_min_spec lexc Htot Htr l x) as [Hmin_in Hmin].
  destruct (py_max_spec lexc Htot Htr l x) as [Hmax_in Hmax].
  destruct (common_head_prefix Ascii.eqb Ascii.eqb_eq
              (posixpath.py_min lexc x l) (posixpath.py_max lexc x l))
    as [H1 H2].
  split.
  - intros p Hp. rewrite is_char_prefix_by.
    apply (prefix_between posixpath.char_leb Ascii.eqb char_leb_antisym
             Ascii.eqb_eq _ (posixpath.py_min lexc x l) p
             (posixpath.py_max lexc x l));
      [now apply Hmin|now apply Hmax|assumption|assumption].
  - intros q _ Hq. rewrite is_char_prefix_by.
    apply (common_head_greatest Ascii.eqb Ascii.eqb_eq);
      rewrite <- is_char_prefix_by; now apply Hq.
Qed.

Lemma clean_components (s : str) :
  forallb is_clean (filter kept (split sep s)) = true.
Proof.
  destruct (parse_clean s) as (r & tail & Hp & _ & Ht).
  rewrite parse_explicit in Hp. inversion Hp as [[Hr' Ht']]. now rewrite Ht'.
Qed.

Lemma prefix_by_forallb {A} (eqb : A -> A -> bool) (f : A -> bool) (a b : list A) :
  (forall x y, eqb x y = true <-> x = y) ->
  prefix_by eqb a b = true -> forallb f b = true -> forallb f a = true.
Proof.
  intros Heq. revert b. induction a as [|x a IH]; intros [|y b]; simpl;
    try discriminate; auto.
  intros [E H]%andb_true_iff [Hy Hb]%andb_true_iff.
  apply Heq in E. subst y. rewrite Hy. now apply (IH b).
Qed.

Lemma isabs_startswith (p : str) : isabs p = startswith "/" p.
Proof.
  destruct p as [|c p]; [reflexivity|]. unfold isabs. simpl.
  now rewrite Ascii.eqb_sym.
Qed.

Lemma forallb_false_exists {A} (f : A -> bool) (l : list A) :
  forallb f l = false -> exists x, In x l /\ f x = false.
Proof.
  induction l as [|x l IH]; simpl; [discriminate|].
  destruct (f x) eqn:E; simpl.
  - intros H. destruct (IH H) as (y & Hy & Hf). exists y. auto.
  - intros _. exists x. auto.
Qed.

(** The pieces of [posixpath.commonpath] on a non-empty list. *)
Lemma commonpath_cons (p0 : str) (ps : list str) :
  let cl := fun p => filter kept (split sep p) in
  let lexs := posixpath.lex_leb (posixpath.lex_leb posixpath.char_leb) in
  posixpath.commonpath (p0 :: ps)
  = if negb (forallb (fun p => Bool.eqb (isabs p) (isabs p0)) ps)
    then PRaise ValueError
    else POk ((if isabs p0 then lit "/" else lit "")
              ++ Py.join sep
                   (posixpath.common_head str_eqb
                      (posixpath.py_min lexs (cl p0) (map cl ps))
                      (posixpath.py_max lexs (cl p0) (map cl ps)))).
Proof. reflexivity. Qed.

(** What [commonpath] returns: one separator when the paths are
    absolute, then clean components, joined, that lead the components of
    every path of the list. *)
Lemma commonpath_shape (paths : list str) (c p : str) :
  roadpath.commonpath paths = Ok c -> In p paths ->
  exists common,
    forallb is_clean common = true
    /\ c = (if isabs p then lit "/" else lit "") ++ Py.join sep common
    /\ prefix_by str_eqb common (filter kept (split sep p)) = true.
Proof.
  unfold roadpath.commonpath. destruct paths as [|p0 ps]; [discriminate|].
  rewrite commonpath_cons. cbv zeta.
  destruct (forallb (fun p => Bool.eqb (isabs p) (isabs p0)) ps) eqn:Hall;
    [|discriminate].
  simpl negb. cbv iota. unfold propagate. intros H Hp.
  assert (Hc : (if isabs p0 then lit "/" else lit "")
               ++ Py.join sep
                    (posixpath.common_head str_eqb
                       (posixpath.py_min
                          (posixpath.lex_leb (posixpath.lex_leb posixpath.char_leb))
                          (filter kept (split sep p0))
                          (map (fun p => filter kept (split sep p)) ps))
                       (posixpath.py_max
                          (posixpath.lex_leb (posixpath.lex_leb posixpath.char_leb))
                          (filter kept (split sep p0))
                          (map (fun p => filter kept (split sep p)) ps)))
               = c) by congruence.
  clear H.
  set (cl := fun p : str => filter kept (split sep p)) in *.
  set (lexs := posixpath.lex_leb (posixpath.lex_leb posixpath.char_leb)) in *.
  set (s1 := posixpath.py_min lexs (cl p0) (map cl ps)) in *.
  set (s2 := posixpath.py_max lexs (cl p0) (map cl ps)) in *.
  set (common := posixpath.common_head str_eqb s1 s2) in *.
  assert (Lt : forall a b, posixpath.lex_leb posixpath.char_leb a b = true
                           \/ posixpath.lex_leb posixpath.char_leb b a = true)
    by (apply lex_leb_total; exact char_leb_total).
  assert (La : forall a b, posixpath.lex_leb posixpath.char_leb a b = true ->
                           posixpath.lex_leb posixpath.char_leb b a = true -> a = b)
    by (apply lex_leb_antisym; exact char_leb_antisym).
  assert (Lr : forall a b d, posixpath.lex_leb posixpath.char_leb a b = true ->
                             posixpath.lex_leb posixpath.char_leb b d = true ->
                             posixpath.lex_leb posixpath.char_leb a d = true)
    by (apply lex_leb_trans;
        first [exact char_leb_total|exact char_leb_antisym|exact char_leb_trans]).
  assert (Htot : forall a b, lexs a b = true \/ lexs b a = true)
    by (apply lex_leb_total; exact Lt).
  assert (Htr : forall a b d, lexs a b = true -> lexs b d = true -> lexs a d = true)
    by (apply lex_leb_trans; first [exact Lt|exact La|exact Lr]).
  destruct (py_min_spec lexs Htot Htr (map cl ps) (cl p0)) as [Hmin_in Hmin].
  destruct (py_max_spec lexs Htot Htr (map cl ps) (cl p0)) as [_ Hmax].
  fold s1 in Hmin_in, Hmin. fold s2 in Hmax.
  destruct (common_head_prefix str_eqb str_eqb_eq s1 s2) as [H1 H2].
  fold common in H1, H2.
  assert (Hin : In (cl p) (cl p0 :: map cl ps)).
  { destruct Hp as [<-|Hp]; [now left|right; now apply in_map]. }
  assert (Hpre : prefix_by str_eqb common (cl p) = true).
  { apply (prefix_between (posixpath.lex_leb posixpath.char_leb) str_eqb La
             str_eqb_eq common s1 (cl p) s2);
      [now apply Hmin|now apply Hmax|assumption|assumption]. }
  assert (Hclean : forallb is_clean common = true).
  { apply (prefix_by_forallb str_eqb is_clean common (cl p) str_eqb_eq Hpre).
    apply clean_components. }
  assert (Habs : isabs p = isabs p0).
  { destruct Hp as [<-|Hp]; [reflexivity|].
    rewrite forallb_forall in Hall. now apply eqb_prop, Hall. }
  exists common. rewrite Habs. now repeat split.
Qed.

(** X25. [commonpath] returns a common ancestor.  When it returns [c],
    for every path [p] of the list: [c] is absolute exactly when [p] is;
    the root of [c] is one separator when [p] is absolute (never two) and
    empty otherwise; the names of [c], its components after the root,
    lead the names of [p]; and unless the root of [p] is the doubled
    separator, the components of [c], root included, lead the components
    of [p]. *)
Theorem commonpath_is_ancestor (paths : list str) (c p : str) :
  roadpath.commonpath paths = Ok c -> In p paths ->
  isabs c = isabs p
  /\ root (roadpath._path (roadpath.RoadPath_ c))
     = (if isabs p then lit "/" else lit "")
  /\ is_prefix (_tail (roadpath._path (roadpath.RoadPath_ c)))
               (_tail (roadpath._path (roadpath.RoadPath_ p))) = true
  /\ (root (roadpath._path (roadpath.RoadPath_ p)) <> lit "//" ->
      is_prefix (roadpath.RoadPath.parts (roadpath.RoadPath_ c))
                (roadpath.RoadPath.parts (roadpath.RoadPath_ p)) = true).
Proof.
  intros H Hp.
  destruct (commonpath_shape paths c p H Hp) as (common & Hclean & Hc & Hpre).
  rewrite <- is_prefix_by in Hpre.
  change (roadpath._path (roadpath.RoadPath_ c)) with (of_str c).
  change (roadpath._path (roadpath.RoadPath_ p)) with (of_str p).
  change (roadpath.RoadPath.parts (roadpath.RoadPath_ c)) with (parts (of_str c)).
  change (roadpath.RoadPath.parts (roadpath.RoadPath_ p)) with (parts (of_str p)).
  rewrite !parts_explicit, !tail_explicit, !root_explicit, <- !isabs_startswith.
  pose proof (join_clean_no_lead common Hclean) as Hrel.
  assert (Hlead : lead (Py.join sep common) = 0).
  { rewrite lead_startswith in Hrel.
    destruct (lead (Py.join sep common)); [reflexivity|discriminate]. }
  destruct (isabs p) eqn:Habs.
  - assert (Ec : c = sep :: Py.join sep common) by exact Hc.
    assert (Hca : isabs c = true) by (now rewrite Ec).
    assert (Hcl : lead c = 1).
    { rewrite Ec. cbn [lead]. now rewrite Ascii.eqb_refl, Hlead. }
    assert (Hct : filter kept (split sep c) = common).
    { rewrite Ec, filter_kept_split_sep. now apply filter_split_join. }
    rewrite Hca, Hcl, Hct. repeat split; [assumption|].
    intros Hroot.
    assert (Hrp : root_by_lead (lead p) = lit "/").
    { rewrite isabs_startswith, lead_startswith in Habs.
      destruct (lead p) as [|[|[|n]]]; try reflexivity; [discriminate|].
      now elim Hroot. }
    rewrite Hrp. cbn [is_prefix]. now rewrite str_eqb_refl.
  - assert (Ec : c = Py.join sep common) by exact Hc.
    assert (Hca : isabs c = false) by (now rewrite Ec, isabs_startswith).
    assert (Hct : filter kept (split sep c) = common).
    { rewrite Ec. now apply filter_split_join. }
    rewrite Hca, Hct, Ec, Hlead. repeat split; [assumption|].
    intros _. exact Hpre.
Qed.

Lemma commonpath_is_ancestor_witness :
  isabs "/a/b" = isabs "/a/b/d"
  /\ root (roadpath._path (roadpath.RoadPath_ "/a/b")) = lit "/"
  /\ is_prefix (_tail (roadpath._path (roadpath.RoadPath_ "/a/b")))
               (_tail (roadpath._path (roadpath.RoadPath_ "/a/b/d"))) = true
  /\ (root (roadpath._path (roadpath.RoadPath_ "/a/b/d")) <> lit "//" ->
      is_prefix (roadpath.RoadPath.parts (roadpath.RoadPath_ "/a/b"))
                (roadpath.RoadPath.parts (roadpath.RoadPath_ "/a/b/d")) = true).
Proof.
  apply (commonpath_is_ancestor [lit "/a/b/c"; lit "/a/b/d"] "/a/b" "/a/b/d").
  - reflexivity.
  - right. now left.
Defined.

(** Under the doubled separator the root of the paths is not the root of
    what [commonpath] returns, so there the components of the result do
    not lead those of the paths, though the names do. *)
Lemma commonpath_doubled_separator :
  roadpath.commonpath [lit "//a/b"; lit "//a/c"] = Ok (lit "/a")
  /\ roadpath.RoadPath.parts (roadpath.RoadPath_ "/a") = [lit "/"; lit "a"]
  /\ roadpath.RoadPath.parts (roadpath.RoadPath_ "//a/b")
     = [lit "//"; lit "a"; lit "b"]
  /\ is_prefix (roadpath.RoadPath.parts (roadpath.RoadPath_ "/a"))
               (roadpath.RoadPath.parts (roadpath.RoadPath_ "//a/b")) = false.
Proof. repeat split. Qed.

(** X26. When [commonpath] fails: it raises [ValueError] exactly on an
    empty list and on a list that mixes absolute and relative paths, and
    returns a path on every other list. *)
Theorem commonpath_raises_iff (paths : list str) :
  (roadpath.commonpath paths = Raise (Builtin ValueError)
   <-> paths = []
       \/ exists p q, In p paths /\ In q paths /\ isabs p <> isabs q)
  /\ ((exists c, roadpath.commonpath paths = Ok c)
      \/ roadpath.commonpath paths = Raise (Builtin ValueError)).
Proof.
  unfold roadpath.commonpath. destruct paths as [|p0 ps].
  - split; [|now right]. split; [now left|reflexivity].
  - rewrite commonpath_cons. cbv zeta.
    destruct (forallb (fun p => Bool.eqb (isabs p) (isabs p0)) ps) eqn:Hall;
      simpl negb; cbv iota; unfold propagate.
    + split; [|left; eexists; reflexivity]. split; [discriminate|].
      intros [H|(p & q & Hp & Hq & Hne)]; [discriminate|]. exfalso.
      rewrite forallb_forall in Hall.
      assert (Hsame : forall x, In x (p0 :: ps) -> isabs x = isabs p0).
      { intros x [<-|Hx]; [reflexivity|]. now apply eqb_prop, Hall. }
      apply Hne. now rewrite (Hsame p Hp), (Hsame q Hq).
    + split; [|now right]. split; [intros _|reflexivity]. right.
      destruct (forallb_false_exists _ _ Hall) as (p & Hp & Hf).
      exists p, p0. repeat split; [now right|now left|].
      intros E. rewrite E in Hf.
      now rewrite eqb_reflx in Hf.
Qed.

(** ** relative, cwd and the parent marker *)

(** X27. The free functions round-trip: for a non-empty base [b], whenever
    [relative(p, b)] returns [r], [join(b, r)] is [str(RoadPath(p))]. *)
Theorem join_relative (w : roadpath.world) (p b r : str) :
  truthy b = true ->
  roadpath.relative w p (Some b) = Ok r ->
  roadpath.join [b; r] = roadpath.RoadPath.__str__ (roadpath.RoadPath_ p).
Proof.
  intros Hb. unfold roadpath.relative, roadpath.base_or_getcwd, relative_to_arg.
  rewrite Hb. simpl pbind.
  change (with_segments [SegStr b]) with (of_str b).
  destruct (relative_to (of_str p) (of_str b)) as [q|e] eqn:E; [|discriminate].
  simpl. intros H. inversion H; subst r. clear H.
  destruct (parse_clean p) as (rt & tail & Hs & Hr & Ht).
  destruct (parse_clean b) as (rb & tb & Hpb & Hrb & Htb).
  destruct (relative_to_result p b rt rb tail tb q Hs Hpb E) as (-> & Hsum & ->).
  set (comps := skipn (List.length tb) tail) in *.
  assert (Hc : forallb is_clean comps = true) by now apply forallb_skipn.
  change (to_str (mkPath comps [] [] comps None)) with (render [] comps).
  unfold roadpath.join.
  change (roadpath.RoadPath.__str__ (roadpath.RoadPath_ p))
    with (to_str (of_str p)).
  rewrite to_str_of_segments. apply of_str_parse_eq.
  change (joined_raw [b; render [] comps])
    with (posixpath.join_step b (render [] comps)).
  pose proof (parse_render [] comps eq_refl Hc) as Hrel.
  rewrite (parse_join_step_parts b _ rt [] tb comps Hpb Hrel
             (relative_no_lead _ _ Hrel)).
  now rewrite Hsum, Hs.
Qed.

Lemma join_relative_witness :
  roadpath.join [lit "/a//b"; lit "c/d"]
  = roadpath.RoadPath.__str__ (roadpath.RoadPath_ "/a/b/./c/d").
Proof.
  apply (join_relative bare_world "/a/b/./c/d" "/a//b" "c/d"); reflexivity.
Defined.

(** X28. [cwd()] is [RoadPath] of what [os.getcwd()] returns, and raises
    what it raises. *)
Theorem cwd_is_getcwd (w : roadpath.world) :
  roadpath.RoadPath.cwd w
  = match os.getcwd (roadpath.proc w) with
    | POk cwd => Ok (roadpath.RoadPath_ cwd)
    | PRaise e => Raise (Builtin e)
    end.
Proof.
  unfold roadpath.RoadPath.cwd, cwd, absolute.
  change (is_absolute (of_segments [])) with false. cbv iota.
  destruct (os.getcwd (roadpath.proc w)) as [c|e]; [|reflexivity].
  simpl pbind.
  change (negb (truthy (root (of_segments [])))
          && negb (nonempty (_tail (of_segments [])))) with true.
  cbv iota. unfold propagate, pmap, pbind, roadpath.RoadPath.__init__,
    with_segments.
  simpl flat_map. rewrite raw_of_segments. reflexivity.
Qed.

Lemma normpath_step_push_pop (r : str) (acc : list str) (x : str) :
  is_clean x = true -> is_dotdot x = false ->
  posixpath.normpath_step r (posixpath.normpath_step r acc x) dotdot = acc.
Proof.
  intros Hx Hd.
  destruct (normpath_step_cases r acc x (kept_of_clean x Hx))
    as [[-> _]|[Hdd _]]; [|congruence].
  destruct (normpath_step_cases r (acc ++ [x]) dotdot eq_refl)
    as [[_ H]|[_ ->]]; [|apply removelast_last].
  exfalso. destruct H as [H|[[_ H]|(a & y & E & Hy)]].
  - discriminate.
  - now destruct acc.
  - apply app_inj_tail in E as [_ <-]. congruence.
Qed.

(** X29. The parent marker against [dirname]: when the last component of
    [s] is a name other than [..], joining [..] and normalizing gives the
    normalized parent: [normalize(join(s, ".."))] equals
    [normalize(dirname(s))]. *)
Theorem join_dotdot_is_dirname (s : str) :
  truthy (roadpath.basename s) = true ->
  roadpath.basename s <> dotdot ->
  roadpath.normalize (roadpath.join [s; dotdot])
  = roadpath.normalize (roadpath.dirname s).
Proof.
  unfold roadpath.basename, roadpath.dirname, roadpath.normalize, roadpath.join.
  destruct (of_str_parts s) as (r & tail & E & Hp & Hr & Ht).
  rewrite (name_of_str _ _ _ Hp). intros Hnm Hdd.
  assert (Hne : tail <> []) by (intros ->; discriminate).
  destruct (exists_last Hne) as (init & x & ->). rewrite last_last in *.
  rewrite forallb_app in Ht. apply andb_true_iff in Ht as [Hi Hx].
  simpl in Hx. rewrite andb_true_r in Hx.
  rewrite to_str_of_segments, normpath_to_str.
  change (joined_raw [s; dotdot]) with (posixpath.join_step s dotdot).
  rewrite (normpath_parse _ r ((init ++ [x]) ++ [dotdot])
             (parse_join_step_parts s dotdot r [] _ [dotdot] Hp eq_refl eq_refl)).
  rewrite E. unfold parent. simpl _tail. simpl drive. simpl root.
  replace (nonempty (init ++ [x])) with true by now destruct init.
  simpl negb. cbv iota. rewrite removelast_last, to_str_from_parsed.
  rewrite (normpath_parse _ r init (parse_render r init Hr Hi)).
  unfold normalized. rewrite !fold_left_app. simpl fold_left.
  rewrite normpath_step_push_pop; [reflexivity|assumption|].
  apply str_eqb_neq. exact Hdd.
Qed.

Lemma join_dotdot_is_dirname_witness :
  roadpath.normalize (roadpath.join [lit "/tmp/app"; dotdot])
  = roadpath.normalize (roadpath.dirname "/tmp/app").
Proof.
  apply (join_dotdot_is_dirname "/tmp/app"); [reflexivity|discriminate].
Defined.
